(** * Resort map view (frontend/src/app/page.tsx)

    A shallow embedding of the page component [Home]: the seeded lift
    collection, the display tables, the path-descriptor builder
    [drawLiftLine], the three layers the component derives from its
    selection state on every render, and the event loop that drives the
    selection. *)

From Stdlib Require Import List String Ascii ZArith Bool Lia.
From Stdlib Require Import DecimalString DecimalZ.
Import ListNotations.

Local Open Scope list_scope.
Local Open Scope string_scope.

(** ** JavaScript values used by the page *)

Module JS.

(** [Array.prototype.join] on an array of strings. *)
Fixpoint join (sep : string) (xs : list string) : string :=
  match xs with
  | [] => ""
  | x :: rest =>
      match rest with
      | [] => x
      | _ :: _ => x ++ sep ++ join sep rest
      end
  end.

(** [String.prototype.split] on a one-character separator: every field,
    empty ones included. *)
Fixpoint split (sep : ascii) (s : string) : list string :=
  match s with
  | EmptyString => [""]
  | String c s' =>
      if Ascii.eqb c sep then "" :: split sep s'
      else match split sep s' with
           | [] => [String c ""]
           | field :: fields => String c field :: fields
           end
  end.

(** [String.prototype.toUpperCase] on one ASCII code unit. *)
Definition upper_char (c : ascii) : ascii :=
  let n := nat_of_ascii c in
  if (97 <=? n)%nat && (n <=? 122)%nat then ascii_of_nat (n - 32) else c.

(** [String.prototype.toUpperCase]; the page applies it to the status and
    difficulty literals only, which are ASCII. *)
Fixpoint toUpperCase (s : string) : string :=
  match s with
  | EmptyString => EmptyString
  | String c s' => String (upper_char c) (toUpperCase s')
  end.

(** [a === b] where [a : string | null] and [b : string]. *)
Definition strict_eq (a : option string) (b : string) : bool :=
  match a with
  | Some x => String.eqb x b
  | None => false
  end.

(** A template-literal hole [${v}] where [v] may be [undefined]. *)
Definition interpolate (v : option string) : string :=
  match v with
  | Some s => s
  | None => "undefined"
  end.

(** [table[key]] on an object literal: [None] is [undefined]. *)
Fixpoint get (table : list (string * string)) (key : string) : option string :=
  match table with
  | [] => None
  | (k, v) :: rest => if String.eqb k key then Some v else get rest key
  end.

(** [Number.prototype.toString] on an integer value: the decimal numeral,
    with a leading minus sign below zero. This is what JS prints for the
    integers up to [Number.MAX_SAFE_INTEGER] in magnitude; beyond, JS
    rounds to the nearest [number] and, from 1e21 on, prints an exponent. *)
Definition Z_toString (z : Z) : string :=
  NilZero.string_of_int (Z.to_int z).

(** The inverse reading of a decimal numeral. *)
Definition Z_ofString (s : string) : option Z :=
  option_map Z.of_int (NilZero.int_of_string s).

End JS.

(** ** Whitespace-separated tokens

    Both a [class] attribute and SVG path data are read as tokens separated
    by white space (space, tab, line feed, form feed, carriage return). *)

Definition is_wsp (c : ascii) : bool :=
  let n := nat_of_ascii c in
  (n =? 32)%nat || (n =? 9)%nat || (n =? 10)%nat || (n =? 12)%nat || (n =? 13)%nat.

(** The maximal runs between white-space characters, empty runs included. *)
Fixpoint fields (s : string) : list string :=
  match s with
  | EmptyString => [""]
  | String c s' =>
      if is_wsp c then "" :: fields s'
      else match fields s' with
           | [] => [String c ""]
           | field :: rest => String c field :: rest
           end
  end.

Definition nonempty (s : string) : bool :=
  match s with
  | EmptyString => false
  | String _ _ => true
  end.

Definition tokens (s : string) : list string := filter nonempty (fields s).

Definition has_class (c : string) (className : string) : bool :=
  existsb (String.eqb c) (tokens className).

Definition nl : string := String (ascii_of_nat 10) "".

(** ** The data model *)

Inductive Status := open | closed | hold.
Inductive LiftType := express | quad | magic_carpet.
Inductive Difficulty := beginner | intermediate | advanced.

Definition Status_str (s : Status) : string :=
  match s with open => "open" | closed => "closed" | hold => "hold" end.

Definition LiftType_str (t : LiftType) : string :=
  match t with express => "express" | quad => "quad" | magic_carpet => "magic-carpet" end.

Definition Difficulty_str (d : Difficulty) : string :=
  match d with
  | beginner => "beginner" | intermediate => "intermediate" | advanced => "advanced"
  end.

(** The display tables, lines 49-65: object literals keyed by the runtime
    strings, in insertion order. *)
Definition statusColors : list (string * string) :=
  [ ("open", "bg-emerald-500 text-white");
    ("closed", "bg-red-500 text-white");
    ("hold", "bg-amber-500 text-white") ].

Definition difficultyColors : list (string * string) :=
  [ ("beginner", "bg-green-100 text-green-800");
    ("intermediate", "bg-blue-100 text-blue-800");
    ("advanced", "bg-black text-white") ].

Definition typeIcons : list (string * string) :=
  [ ("express", "🚡");
    ("quad", "🚠");
    ("magic-carpet", "✨") ].

(** ** The rendered tree *)

Record LegendItem := {
  legend_key : string;
  legend_dot_className : string;
  legend_label : string
}.

Record PathElement := {
  path_key : string;
  d : string;
  stroke : string;
  strokeWidth : Z;
  fill : string;
  path_className : string;
  strokeDasharray : string
}.

Record Badge := {
  badge_variant : string;
  badge_className : option string;
  badge_text : string
}.

Record CardContent := {
  card_className : string;
  card_heading : string;
  card_status : Badge;
  card_difficulty : Badge;
  card_wait : string
}.

(** The click handler [() => setSelectedLift(lift.id)], as the value it
    passes to the state setter. *)
Inductive Handler := SetSelectedLift (lift_id : string).

Record ListEntry := {
  entry_key : string;
  variant : string;
  onClick : Handler;
  entry_className : string;
  entry_icon : option string;
  entry_name : string;
  entry_wait : string;
  entry_difficulty : Badge;
  entry_status : Badge
}.

(** The error monad of a render: [None] is a thrown [TypeError]. *)
Definition bind {A B} (m : option A) (k : A -> option B) : option B :=
  match m with
  | Some a => k a
  | None => None
  end.

Notation "x <- m ;; k" := (bind m (fun x => k))
  (at level 61, m at next level, right associativity).

(** [Array.prototype.map] with a callback that may throw. *)
Fixpoint mapM {A B} (f : A -> option B) (l : list A) : option (list B) :=
  match l with
  | [] => Some []
  | a :: rest =>
      b <- f a ;;
      bs <- mapM f rest ;;
      Some (b :: bs)
  end.

Section Page.

(** The page's [number] values and their [toString]: the definitions below
    do not look inside a number, they only print it. *)
Context {number : Type}.
Variable Number_toString : number -> string.

Definition Point : Type := number * number.

(** [interface Lift], lines 9-17. *)
Record Lift := {
  id : string;
  name : string;
  status : Status;
  type : LiftType;
  difficulty : Difficulty;
  path : list Point;
  waitTime : number
}.

Record Marker := {
  marker_key : string;
  trigger_className : string;
  left : number;
  top : number;
  dot_className : string;
  icon : option string;
  content : CardContent
}.

Record View := {
  legend : list LegendItem;
  liftLines : list PathElement;
  markers : list Marker;
  entries : list ListEntry
}.

(** [point.join(' ')] on a two-element tuple. *)
Definition point_join (sep : string) (p : Point) : string :=
  JS.join sep [Number_toString (fst p); Number_toString (snd p)].

(** [drawLiftLine], lines 70-72. *)
Definition drawLiftLine (points : list Point) : string :=
  "M " ++ JS.join " L " (map (point_join " ") points).

(** The status legend, lines 84-89. *)
Definition render_legend_item (entry : string * string) : LegendItem :=
  let '(status, color) := entry in
  {| legend_key := status;
     legend_dot_className :=
       "w-3 h-3 rounded-full " ++ JS.interpolate (nth_error (JS.split " " color) 0);
     legend_label := status |}.

(** One [<path>] of the line layer, lines 99-107. *)
Definition render_path (selectedLift : option string) (lift : Lift) : PathElement :=
  {| path_key := id lift;
     d := drawLiftLine (path lift);
     stroke := if JS.strict_eq selectedLift (id lift) then "#0f172a" else "#64748b";
     strokeWidth := if JS.strict_eq selectedLift (id lift) then 4%Z else 2%Z;
     fill := "none";
     path_className := "transition-all duration-300";
     strokeDasharray :=
       if String.eqb (Status_str (status lift)) "closed" then "5,5" else "none" |}.

(** The hover card's content, lines 130-145. *)
Definition render_card (lift : Lift) : CardContent :=
  {| card_className := "w-64";
     card_heading := name lift;
     card_status :=
       {| badge_variant := "secondary";
          badge_className := JS.get statusColors (Status_str (status lift));
          badge_text := JS.toUpperCase (Status_str (status lift)) |};
     card_difficulty :=
       {| badge_variant := "secondary";
          badge_className := JS.get difficultyColors (Difficulty_str (difficulty lift));
          badge_text := JS.toUpperCase (Difficulty_str (difficulty lift)) |};
     card_wait := "Wait time: " ++ Number_toString (waitTime lift) ++ " minutes" |}.

(** One marker with its hover card, lines 113-146. [lift.path[0][0]]
    throws when the path is empty. *)
Definition render_marker (selectedLift : option string) (lift : Lift) : option Marker :=
  p0 <- nth_error (path lift) 0 ;;
  Some
    {| marker_key := id lift;
       trigger_className :=
         "absolute cursor-pointer transition-all duration-300" ++ nl ++
         "                    " ++
         (if JS.strict_eq selectedLift (id lift)
          then "scale-150 z-20" else "scale-100 z-10");
       left := fst p0;
       top := snd p0;
       dot_className :=
         "w-6 h-6 rounded-full " ++
         JS.interpolate (JS.get statusColors (Status_str (status lift))) ++ " " ++ nl ++
         "                    shadow-lg flex items-center justify-center" ++ nl ++
         "                    border-2 border-white transform -translate-x-1/2 -translate-y-1/2";
       icon := JS.get typeIcons (LiftType_str (type lift));
       content := render_card lift |}.

(** One button of the lift list, lines 155-178. *)
Definition render_entry (selectedLift : option string) (lift : Lift) : ListEntry :=
  {| entry_key := id lift;
     variant := if JS.strict_eq selectedLift (id lift) then "default" else "outline";
     onClick := SetSelectedLift (id lift);
     entry_className :=
       "w-full p-6 justify-between group hover:shadow-md" ++ nl ++
       "                  " ++
       (if JS.strict_eq selectedLift (id lift)
        then "ring-2 ring-offset-2 ring-slate-900" else "") ++ nl ++
       "                  transition-all duration-300";
     entry_icon := JS.get typeIcons (LiftType_str (type lift));
     entry_name := name lift;
     entry_wait := Number_toString (waitTime lift) ++ " min wait";
     entry_difficulty :=
       {| badge_variant := "secondary";
          badge_className := JS.get difficultyColors (Difficulty_str (difficulty lift));
          badge_text := Difficulty_str (difficulty lift) |};
     entry_status :=
       {| badge_variant := "secondary";
          badge_className := JS.get statusColors (Status_str (status lift));
          badge_text := Status_str (status lift) |} |}.

(** The body of [Home] (lines 74-184) over a lift collection: the tree it
    returns for a given value of the [selectedLift] state. *)
Definition render (lifts : list Lift) (selectedLift : option string) : option View :=
  ms <- mapM (render_marker selectedLift) lifts ;;
  Some
    {| legend := map render_legend_item statusColors;
       liftLines := map (render_path selectedLift) lifts;
       markers := ms;
       entries := map (render_entry selectedLift) lifts |}.

End Page.

Arguments Point : clear implicits.
Arguments Lift : clear implicits.
Arguments Marker : clear implicits.
Arguments View : clear implicits.

(** ** State and events *)

(** The state of a mounted [Home]: [selectedLift] is the [useState] cell of
    line 68, [hoverOpen] the position of the marker whose hover card is
    open, which the hover cards keep to themselves. *)
Record HomeState := {
  selectedLift : option string;
  hoverOpen : option nat
}.

(** [useState<string | null>(null)]. *)
Definition initial : HomeState :=
  {| selectedLift := None; hoverOpen := None |}.

(** The pointer events of the page: a click on the [i]-th entry of the lift
    list, the pointer entering or leaving the [i]-th marker. *)
Inductive Event :=
| ClickEntry (i : nat)
| HoverMarker (i : nat)
| LeaveMarker (i : nat).

(** Running a click handler: [setSelectedLift(lift.id)]. *)
Definition run_handler (h : Handler) (st : HomeState) : HomeState :=
  match h with
  | SetSelectedLift lift_id =>
      {| selectedLift := Some lift_id; hoverOpen := hoverOpen st |}
  end.

Definition eqb_option_nat (a : option nat) (b : nat) : bool :=
  match a with
  | Some x => Nat.eqb x b
  | None => false
  end.

(** Modelled from the spec: the HoverCard component
    (components/ui/hover-card) is not among the page's sources. It reveals
    the panel of a marker while the pointer is over that marker; the page
    passes it no callback, so all it changes is which panel is open. *)
Definition hover_enter (i : nat) (st : HomeState) : HomeState :=
  {| selectedLift := selectedLift st; hoverOpen := Some i |}.

(** Modelled from the spec: the panel of a marker closes when the pointer
    leaves that marker. *)
Definition hover_leave (i : nat) (st : HomeState) : HomeState :=
  if eqb_option_nat (hoverOpen st) i
  then {| selectedLift := selectedLift st; hoverOpen := None |}
  else st.

(** Modelled from the spec: the Button component (components/ui/button) is
    not among the page's sources. A click on a list entry runs the [onClick]
    handler the page gave that entry. *)
Definition click (entry : ListEntry) (st : HomeState) : HomeState :=
  run_handler (onClick entry) st.

Section Loop.

Context {number : Type}.
Variable Number_toString : number -> string.
Variable lifts : list (Lift number).

(** One turn of the event loop. The elements that take events are those
    of the tree rendered from the current state; when the render threw,
    nothing is mounted and no event has a target. *)
Definition dispatch (st : HomeState) (e : Event) : HomeState :=
  match render Number_toString lifts (selectedLift st) with
  | None => st
  | Some view =>
      match e with
      | ClickEntry i =>
          match nth_error (entries view) i with
          | Some entry => click entry st
          | None => st
          end
      | HoverMarker i =>
          match nth_error (markers view) i with
          | Some _ => hover_enter i st
          | None => st
          end
      | LeaveMarker i => hover_leave i st
      end
  end.

Definition run (st : HomeState) (events : list Event) : HomeState :=
  fold_left dispatch events st.

(** The states the loop can be in, starting from [initial]. *)
Inductive reachable : HomeState -> Prop :=
| reachable_initial : reachable initial
| reachable_dispatch st e : reachable st -> reachable (dispatch st e).

(** The panel on display, if any. *)
Definition revealed (st : HomeState) : option CardContent :=
  view <- render Number_toString lifts (selectedLift st) ;;
  i <- hoverOpen st ;;
  m <- nth_error (markers view) i ;;
  Some (content m).

End Loop.

(** ** The seeded collection, lines 19-47 *)

Definition lifts : list (Lift Z) :=
  [ {| id := "1";
       name := "Blue Mountain Express";
       status := open;
       type := express;
       difficulty := intermediate;
       path := [(120, 150); (180, 80); (250, 50)]%Z;
       waitTime := 5%Z |};
    {| id := "2";
       name := "Summit Quad";
       status := open;
       type := quad;
       difficulty := advanced;
       path := [(250, 200); (300, 150); (350, 100)]%Z;
       waitTime := 12%Z |};
    {| id := "3";
       name := "Beginner Magic Carpet";
       status := hold;
       type := magic_carpet;
       difficulty := beginner;
       path := [(180, 300); (180, 250)]%Z;
       waitTime := 3%Z |} ].

(** [Home] on its own collection. *)
Definition Home (st : HomeState) : option (View Z) :=
  render JS.Z_toString lifts (selectedLift st).

(** ** Reading the rendered tree *)

(** The selected visual state in each layer: the emphasized stroke, the
    enlarged and raised marker, the highlighted list entry. *)
Definition emphasized (p : PathElement) : bool :=
  String.eqb (stroke p) "#0f172a" && Z.eqb (strokeWidth p) 4.

Definition enlarged {number} (m : Marker number) : bool :=
  has_class "scale-150" (trigger_className m) && has_class "z-20" (trigger_className m).

Definition highlighted (e : ListEntry) : bool :=
  String.eqb (variant e) "default" && has_class "ring-2" (entry_className e).

(** In SVG, [stroke-dasharray] draws a solid stroke for [none] and a dashed
    one for a list of lengths. *)
Definition dashed (p : PathElement) : bool :=
  negb (String.eqb (strokeDasharray p) "none").

(** Path data as commands. *)
Inductive PathCommand (number : Type) :=
| MoveTo (p : Point number)
| LineTo (p : Point number).

Arguments MoveTo {number} p.
Arguments LineTo {number} p.

Definition target {number} (c : PathCommand number) : Point number :=
  match c with
  | MoveTo p => p
  | LineTo p => p
  end.

Section PathData.

Context {number : Type}.
Variable Number_ofString : string -> option number.

(** The line-tos after the move-to: [L x y], repeated. *)
Fixpoint read_linetos (toks : list string) : option (list (PathCommand number)) :=
  match toks with
  | [] => Some []
  | c :: x :: y :: rest =>
      if String.eqb c "L" then
        x' <- Number_ofString x ;;
        y' <- Number_ofString y ;;
        cs <- read_linetos rest ;;
        Some (LineTo (x', y') :: cs)
      else None
  | _ => None
  end.

(** A reader for the form of SVG path data the page emits: an absolute
    move-to with one coordinate pair, then absolute line-tos with one
    coordinate pair each, all tokens separated by white space. [None]:
    the string is not path data of that form. *)
Definition read_path (data : string) : option (list (PathCommand number)) :=
  match tokens data with
  | c :: x :: y :: rest =>
      if String.eqb c "M" then
        x' <- Number_ofString x ;;
        y' <- Number_ofString y ;;
        cs <- read_linetos rest ;;
        Some (MoveTo (x', y') :: cs)
      else None
  | _ => None
  end.

End PathData.

(** What the path reader needs of a number printer: a numeral is one token,
    and reading it gives the number back. *)
Definition numerals {number} (Number_toString : number -> string)
    (Number_ofString : string -> option number) : Prop :=
  forall n : number,
    tokens (Number_toString n) = [Number_toString n] /\
    Number_ofString (Number_toString n) = Some n.

(** The points a command list passes through, in order. *)
Definition visited {number} (cs : list (PathCommand number)) : list (Point number) :=
  map target cs.

(** The descriptor in the spec's words: a move-to to the first point, then
    a line-to to each further point, in the order given. *)
Section Descriptor.

Context {number : Type}.
Variable Number_toString : number -> string.

Definition move_to (p : Point number) : string :=
  "M " ++ Number_toString (fst p) ++ " " ++ Number_toString (snd p).

Definition line_to (p : Point number) : string :=
  " L " ++ Number_toString (fst p) ++ " " ++ Number_toString (snd p).

Fixpoint line_tos (ps : list (Point number)) : string :=
  match ps with
  | [] => ""
  | p :: rest => line_to p ++ line_tos rest
  end.

Definition move_then_lines (first : Point number) (rest : list (Point number)) : string :=
  move_to first ++ line_tos rest.

(** The tokens of one line-to. *)
Definition command_tokens (p : Point number) : list string :=
  ["L"; Number_toString (fst p); Number_toString (snd p)].

End Descriptor.

(** [sub] occurs in [s]. *)
Fixpoint contains (sub s : string) : bool :=
  String.prefix sub s ||
  match s with
  | EmptyString => false
  | String _ s' => contains sub s'
  end.

(** No white space in [s]. *)
Fixpoint solid (s : string) : bool :=
  match s with
  | EmptyString => true
  | String c s' => negb (is_wsp c) && solid s'
  end.

(** The data-model invariant of a collection: ids are unique and every path
    has a first point. *)
Definition unique_ids {number} (ls : list (Lift number)) : Prop :=
  NoDup (map id ls).

Definition paths_nonempty {number} (ls : list (Lift number)) : Prop :=
  Forall (fun l => path l <> []) ls.

(** The keys of the elements in the selected visual state, layer by layer:
    lines, markers, list entries. *)
Definition selected_in_view {number} (v : View number)
    : list string * list string * list string :=
  (map path_key (filter emphasized (liftLines v)),
   map marker_key (filter enlarged (markers v)),
   map entry_key (filter highlighted (entries v))).

(** The background (fill) classes among the classes of an element. *)
Definition fill_classes (className : string) : list string :=
  filter (String.prefix "bg-") (tokens className).

(** The marker fill of the spec: open is green (emerald), closed is red, hold
    is amber. *)
Definition fill_of_status (s : Status) : string :=
  match s with
  | open => "bg-emerald-500"
  | closed => "bg-red-500"
  | hold => "bg-amber-500"
  end.

(** ** Summaries of the event loop and of a render *)

(** What one event does to the selection, read off the collection alone: a
    click on an entry in range selects that entry's lift, anything else
    keeps the selection. *)
Definition select_step {number} (ls : list (Lift number))
    (sel : option string) (e : Event) : option string :=
  match e with
  | ClickEntry i =>
      match nth_error ls i with
      | Some l => Some (id l)
      | None => sel
      end
  | HoverMarker _ => sel
  | LeaveMarker _ => sel
  end.

Definition selection_after {number} (ls : list (Lift number))
    (sel : option string) (events : list Event) : option string :=
  fold_left (select_step ls) events sel.

(** Two renderings of an element that differ at most in the attributes the
    selection drives: the stroke and its width for a line, the trigger's
    class for a marker, the variant and the class for a list entry. *)
Definition same_line (p p' : PathElement) : Prop :=
  path_key p = path_key p' /\ d p = d p' /\ fill p = fill p' /\
  path_className p = path_className p' /\ strokeDasharray p = strokeDasharray p'.

Definition same_marker {number} (m m' : Marker number) : Prop :=
  marker_key m = marker_key m' /\ left m = left m' /\ top m = top m' /\
  dot_className m = dot_className m' /\ icon m = icon m' /\ content m = content m'.

Definition same_entry (e e' : ListEntry) : Prop :=
  entry_key e = entry_key e' /\ onClick e = onClick e' /\
  entry_icon e = entry_icon e' /\ entry_name e = entry_name e' /\
  entry_wait e = entry_wait e' /\ entry_difficulty e = entry_difficulty e' /\
  entry_status e = entry_status e'.

(** [Number.MAX_SAFE_INTEGER]: up to it every integer is a [number] of its
    own and [toString] gives its decimal numeral. *)
Definition safe_integer (z : Z) : Prop := (Z.abs z <= 2 ^ 53 - 1)%Z.

Definition safe_point (p : Point Z) : Prop :=
  safe_integer (fst p) /\ safe_integer (snd p).

(** * Properties *)

(** ** Strings and tokens *)

Lemma append_assoc (a b c : string) : (a ++ b) ++ c = a ++ (b ++ c).
Proof. induction a as [|x a IH]; simpl; [reflexivity | now rewrite IH]. Qed.

Lemma append_nil_r (a : string) : a ++ "" = a.
Proof. induction a as [|x a IH]; simpl; [reflexivity | now rewrite IH]. Qed.

Lemma fields_not_nil (s : string) : fields s <> [].
Proof.
  destruct s as [|c s]; simpl; [discriminate|].
  destruct (is_wsp c); [discriminate|].
  destruct (fields s); discriminate.
Qed.

Lemma fields_app_wsp (a b : string) (c : ascii) :
  is_wsp c = true -> fields (a ++ String c b) = (fields a ++ fields b)%list.
Proof.
  intros Hc. induction a as [|x a IH]; simpl.
  - now rewrite Hc.
  - rewrite IH. destruct (is_wsp x); [reflexivity|].
    pose proof (fields_not_nil a) as Ha.
    destruct (fields a) as [|f fs]; [contradiction | reflexivity].
Qed.

Lemma tokens_app_wsp (a b : string) (c : ascii) :
  is_wsp c = true -> tokens (a ++ String c b) = (tokens a ++ tokens b)%list.
Proof.
  intros Hc. unfold tokens. rewrite (fields_app_wsp a b c Hc).
  apply filter_app.
Qed.

Lemma tokens_app_space (a b : string) :
  tokens (a ++ String " " b) = (tokens a ++ tokens b)%list.
Proof. apply (tokens_app_wsp a b " "%char). reflexivity. Qed.

Lemma tokens_space (s : string) : tokens (String " " s) = tokens s.
Proof. apply (tokens_app_space "" s). Qed.

Lemma tokens_letter_space (c : ascii) (s : string) :
  is_wsp c = false -> tokens (String c (String " " s)) = String c "" :: tokens s.
Proof.
  intros Hc. change (String c (String " " s)) with (String c "" ++ String " " s).
  rewrite tokens_app_space. unfold tokens at 1. simpl. now rewrite Hc.
Qed.

Lemma fields_solid (s : string) : solid s = true -> fields s = [s].
Proof.
  induction s as [|c s IH]; simpl; [reflexivity|].
  intros H. apply andb_prop in H as [Hc Hs].
  apply negb_true_iff in Hc. rewrite Hc, (IH Hs). reflexivity.
Qed.

Lemma tokens_solid (s : string) :
  solid s = true -> s <> "" -> tokens s = [s].
Proof.
  intros Hs Hne. unfold tokens. rewrite (fields_solid s Hs). simpl.
  destruct s; [contradiction | reflexivity].
Qed.

(** ** Decimal numerals of integers *)

Lemma solid_string_of_uint (u : Decimal.uint) :
  solid (NilEmpty.string_of_uint u) = true.
Proof. induction u; simpl; auto. Qed.

Lemma solid_Z_toString (z : Z) : solid (JS.Z_toString z) = true.
Proof.
  unfold JS.Z_toString.
  destruct (Z.to_int z) as [u|u]; simpl;
    destruct u; simpl; auto using solid_string_of_uint.
Qed.

Lemma Z_to_int_proper (z : Z) :
  Z.to_int z <> Decimal.Pos Decimal.Nil /\ Z.to_int z <> Decimal.Neg Decimal.Nil.
Proof.
  destruct z as [|p|p]; simpl; split; try discriminate;
    intros [= H]; now apply (DecimalPos.Unsigned.to_uint_nonnil p).
Qed.

Lemma Z_ofString_toString (z : Z) : JS.Z_ofString (JS.Z_toString z) = Some z.
Proof.
  unfold JS.Z_ofString, JS.Z_toString.
  destruct (Z_to_int_proper z) as [Hp Hn].
  rewrite (NilZero.isi _ Hp Hn). simpl. now rewrite DecimalZ.of_to.
Qed.

Lemma Z_toString_not_empty (z : Z) : JS.Z_toString z <> "".
Proof.
  intros H. pose proof (Z_ofString_toString z) as R.
  rewrite H in R. discriminate R.
Qed.

Lemma Z_numerals : numerals JS.Z_toString JS.Z_ofString.
Proof.
  intros z. split.
  - apply tokens_solid; [apply solid_Z_toString | apply Z_toString_not_empty].
  - apply Z_ofString_toString.
Qed.

(** ** The path descriptor *)

Section DescriptorFacts.

Context {number : Type}.
Variable Number_toString : number -> string.
Variable Number_ofString : string -> option number.

Lemma point_join_space (p : Point number) :
  point_join Number_toString " " p =
  Number_toString (fst p) ++ " " ++ Number_toString (snd p).
Proof. reflexivity. Qed.

Lemma join_points (p : Point number) (rest : list (Point number)) :
  JS.join " L " (map (point_join Number_toString " ") (p :: rest)) =
  Number_toString (fst p) ++ " " ++ Number_toString (snd p) ++
  line_tos Number_toString rest.
Proof.
  revert p. induction rest as [|q rest IH]; intros p.
  - simpl. now rewrite append_nil_r.
  - change (JS.join " L " (map (point_join Number_toString " ") (p :: q :: rest)))
      with (point_join Number_toString " " p ++ " L " ++
            JS.join " L " (map (point_join Number_toString " ") (q :: rest))).
    rewrite IH, point_join_space. cbn [line_tos]. unfold line_to.
    now rewrite !append_assoc.
Qed.

Lemma drawLiftLine_nonempty (p : Point number) (rest : list (Point number)) :
  drawLiftLine Number_toString (p :: rest) = move_then_lines Number_toString p rest.
Proof.
  unfold drawLiftLine, move_then_lines, move_to.
  rewrite join_points. now rewrite !append_assoc.
Qed.

Lemma line_tos_cons (q : Point number) (rest : list (Point number)) :
  line_tos Number_toString (q :: rest) =
  String " " (String "L" (String " "
    (Number_toString (fst q) ++
     String " " (Number_toString (snd q) ++ line_tos Number_toString rest)))).
Proof.
  cbn [line_tos]. unfold line_to. rewrite !append_assoc. reflexivity.
Qed.

Lemma tokens_before_line_tos (t : string) (rest : list (Point number)) :
  tokens (t ++ line_tos Number_toString rest) =
  (tokens t ++ tokens (line_tos Number_toString rest))%list.
Proof.
  destruct rest as [|q rest].
  - simpl. now rewrite append_nil_r, app_nil_r.
  - rewrite line_tos_cons, tokens_app_space, tokens_space. reflexivity.
Qed.

Hypothesis Hnum : numerals Number_toString Number_ofString.

Lemma tokens_pair_then (p : Point number) (rest : list (Point number)) :
  tokens (Number_toString (fst p) ++
          String " " (Number_toString (snd p) ++ line_tos Number_toString rest)) =
  Number_toString (fst p) :: Number_toString (snd p) ::
  tokens (line_tos Number_toString rest).
Proof.
  rewrite tokens_app_space, tokens_before_line_tos.
  now rewrite (proj1 (Hnum (fst p))), (proj1 (Hnum (snd p))).
Qed.

Lemma tokens_line_tos (rest : list (Point number)) :
  tokens (line_tos Number_toString rest) = flat_map (command_tokens Number_toString) rest.
Proof.
  induction rest as [|q rest IH]; [reflexivity|].
  rewrite line_tos_cons, tokens_space, tokens_letter_space by reflexivity.
  rewrite tokens_pair_then, IH. reflexivity.
Qed.

Lemma read_linetos_tokens (rest : list (Point number)) :
  read_linetos Number_ofString (flat_map (command_tokens Number_toString) rest) =
  Some (map LineTo rest).
Proof.
  induction rest as [|[x y] rest IH]; [reflexivity|].
  cbn [flat_map command_tokens app fst snd read_linetos String.eqb Ascii.eqb Bool.eqb map].
  rewrite (proj2 (Hnum x)), (proj2 (Hnum y)), IH. reflexivity.
Qed.

Lemma read_path_drawLiftLine (p : Point number) (rest : list (Point number)) :
  read_path Number_ofString (drawLiftLine Number_toString (p :: rest)) =
  Some (MoveTo p :: map LineTo rest).
Proof.
  unfold read_path, drawLiftLine. rewrite join_points.
  cbn [append].
  rewrite tokens_letter_space by reflexivity.
  rewrite tokens_pair_then, tokens_line_tos.
  destruct p as [x y].
  cbn [fst snd String.eqb Ascii.eqb Bool.eqb].
  rewrite (proj2 (Hnum x)), (proj2 (Hnum y)), read_linetos_tokens. reflexivity.
Qed.

Lemma visited_commands (p : Point number) (rest : list (Point number)) :
  visited (MoveTo p :: map LineTo rest) = p :: rest.
Proof.
  unfold visited. simpl. f_equal. rewrite map_map. simpl. apply map_id.
Qed.

End DescriptorFacts.

(** ** Maps that may throw *)

Section MapM.

Context {A B : Type}.
Variable f : A -> option B.

Lemma mapM_cons_Some (a : A) (l : list A) (bs : list B) :
  mapM f (a :: l) = Some bs ->
  exists b bs', f a = Some b /\ mapM f l = Some bs' /\ bs = b :: bs'.
Proof.
  simpl. destruct (f a) as [b|]; simpl; [|discriminate].
  destruct (mapM f l) as [bs'|]; simpl; [|discriminate].
  intros [= <-]. eauto.
Qed.

Lemma mapM_length (l : list A) (bs : list B) :
  mapM f l = Some bs -> List.length bs = List.length l.
Proof.
  revert bs. induction l as [|a l IH]; intros bs H.
  - injection H as <-. reflexivity.
  - apply mapM_cons_Some in H as (b & bs' & _ & Hl & ->).
    simpl. f_equal. now apply IH.
Qed.

Lemma mapM_nth (l : list A) (bs : list B) (i : nat) (a : A) :
  mapM f l = Some bs -> nth_error l i = Some a ->
  exists b, nth_error bs i = Some b /\ f a = Some b.
Proof.
  revert bs i. induction l as [|a0 l IH]; intros bs i H Hi.
  - destruct i; discriminate.
  - apply mapM_cons_Some in H as (b & bs' & Hb & Hl & ->).
    destruct i as [|i]; simpl in *.
    + injection Hi as <-. eauto.
    + eapply IH; eauto.
Qed.

Lemma mapM_defined (l : list A) :
  Forall (fun a => f a <> None) l -> exists bs, mapM f l = Some bs.
Proof.
  induction 1 as [|a l Ha _ [bs IH]]; simpl; [eauto|].
  destruct (f a) as [b|]; [|contradiction]. rewrite IH. simpl. eauto.
Qed.

Lemma mapM_filter {K : Type} (p : B -> bool) (q : A -> bool)
    (kb : B -> K) (ka : A -> K) (l : list A) (bs : list B) :
  (forall a b, f a = Some b -> p b = q a /\ kb b = ka a) ->
  mapM f l = Some bs ->
  map kb (filter p bs) = map ka (filter q l).
Proof.
  intros Hf. revert bs. induction l as [|a l IH]; intros bs H.
  - injection H as <-. reflexivity.
  - apply mapM_cons_Some in H as (b & bs' & Hb & Hl & ->).
    destruct (Hf a b Hb) as [Hp Hk]. simpl. rewrite Hp.
    destruct (q a); simpl; rewrite (IH bs' Hl); congruence.
Qed.

End MapM.

Lemma map_filter_keys {A B K : Type} (g : A -> B) (p : B -> bool) (q : A -> bool)
    (kb : B -> K) (ka : A -> K) (l : list A) :
  (forall a, p (g a) = q a /\ kb (g a) = ka a) ->
  map kb (filter p (map g l)) = map ka (filter q l).
Proof.
  intros Hg. induction l as [|a l IH]; [reflexivity|].
  destruct (Hg a) as [Hp Hk]. simpl. rewrite Hp.
  destruct (q a); simpl; rewrite IH; congruence.
Qed.

(** ** Unique ids *)

Section Ids.

Context {number : Type}.

Lemma no_match_outside (x : string) (ls : list (Lift number)) :
  ~ In x (map id ls) ->
  filter (fun l => JS.strict_eq (Some x) (id l)) ls = [].
Proof.
  induction ls as [|a ls IH]; intros Hx; [reflexivity|].
  simpl in *. destruct (String.eqb_spec x (id a)) as [->|_].
  - exfalso. apply Hx. now left.
  - apply IH. intros H. apply Hx. now right.
Qed.

Lemma sole_match (lx : Lift number) (ls : list (Lift number)) :
  unique_ids ls -> In lx ls ->
  map id (filter (fun l => JS.strict_eq (Some (id lx)) (id l)) ls) = [id lx].
Proof.
  unfold unique_ids. induction ls as [|a ls IH]; intros Hu Hin; [contradiction|].
  cbn [map] in Hu. inversion Hu as [|? ? Hna Hu']; subst.
  cbn [filter]. unfold JS.strict_eq at 1.
  destruct (String.eqb_spec (id lx) (id a)) as [E|NE].
  - rewrite <- E in Hna.
    cbn [map]. rewrite (no_match_outside (id lx) ls Hna), <- E. reflexivity.
  - destruct Hin as [->|Hin]; [contradiction|]. now apply IH.
Qed.

End Ids.

(** ** The rendered layers *)

Section ViewFacts.

Context {number : Type}.
Variable Number_toString : number -> string.

Lemma render_marker_defined (sel : option string) (l : Lift number) :
  path l <> [] -> render_marker Number_toString sel l <> None.
Proof.
  unfold render_marker. destruct (path l) as [|p0 rest]; [contradiction|].
  discriminate.
Qed.

Lemma render_layers (ls : list (Lift number)) (sel : option string) (v : View number) :
  render Number_toString ls sel = Some v ->
  legend v = map render_legend_item statusColors /\
  liftLines v = map (render_path Number_toString sel) ls /\
  mapM (render_marker Number_toString sel) ls = Some (markers v) /\
  entries v = map (render_entry Number_toString sel) ls.
Proof.
  unfold render.
  destruct (mapM (render_marker Number_toString sel) ls) as [ms|]; [|discriminate].
  intros [= <-]. repeat split.
Qed.

Lemma render_defined (ls : list (Lift number)) (sel : option string) :
  paths_nonempty ls -> exists v, render Number_toString ls sel = Some v.
Proof.
  intros Hp.
  destruct (mapM_defined (render_marker Number_toString sel) ls) as [ms Hms].
  - eapply Forall_impl; [|exact Hp]. intros l. apply render_marker_defined.
  - unfold render. rewrite Hms. simpl. eauto.
Qed.

(** One lift without a first point makes the whole render throw. *)
Lemma render_undefined (ls : list (Lift number)) (sel : option string) (l : Lift number) :
  In l ls -> path l = [] -> render Number_toString ls sel = None.
Proof.
  intros Hin Hl. unfold render.
  enough (mapM (render_marker Number_toString sel) ls = None) as -> by reflexivity.
  induction ls as [|a ls IH]; [contradiction|].
  destruct Hin as [->|Hin]; simpl.
  - unfold render_marker at 1. now rewrite Hl.
  - rewrite (IH Hin). now destruct (render_marker Number_toString sel a).
Qed.

Lemma emphasized_path (sel : option string) (l : Lift number) :
  emphasized (render_path Number_toString sel l) = JS.strict_eq sel (id l) /\
  path_key (render_path Number_toString sel l) = id l.
Proof.
  unfold emphasized. cbn [render_path stroke strokeWidth path_key].
  now destruct (JS.strict_eq sel (id l)).
Qed.

Lemma enlarged_marker (sel : option string) (l : Lift number) (m : Marker number) :
  render_marker Number_toString sel l = Some m ->
  enlarged m = JS.strict_eq sel (id l) /\ marker_key m = id l.
Proof.
  unfold render_marker. destruct (path l) as [|p0 rest]; [discriminate|].
  cbn [nth_error bind]. intros [= <-].
  unfold enlarged. cbn [trigger_className marker_key].
  now destruct (JS.strict_eq sel (id l)).
Qed.

Lemma highlighted_entry (sel : option string) (l : Lift number) :
  highlighted (render_entry Number_toString sel l) = JS.strict_eq sel (id l) /\
  entry_key (render_entry Number_toString sel l) = id l.
Proof.
  unfold highlighted. cbn [render_entry variant entry_className entry_key].
  now destruct (JS.strict_eq sel (id l)).
Qed.

Lemma selected_keys (ls : list (Lift number)) (sel : option string) (v : View number) :
  render Number_toString ls sel = Some v ->
  selected_in_view v =
  (let hit := map id (filter (fun l => JS.strict_eq sel (id l)) ls) in (hit, hit, hit)).
Proof.
  intros H. apply render_layers in H as (_ & Hl & Hm & He).
  unfold selected_in_view. rewrite Hl, He.
  rewrite (map_filter_keys (render_path Number_toString sel) emphasized
             (fun l => JS.strict_eq sel (id l)) path_key id ls (emphasized_path sel)).
  rewrite (map_filter_keys (render_entry Number_toString sel) highlighted
             (fun l => JS.strict_eq sel (id l)) entry_key id ls (highlighted_entry sel)).
  rewrite (mapM_filter (render_marker Number_toString sel) enlarged
             (fun l => JS.strict_eq sel (id l)) marker_key id ls (markers v)
             (enlarged_marker sel) Hm).
  reflexivity.
Qed.

Lemma click_entry (ls : list (Lift number)) (st : HomeState) (i : nat) (x : Lift number)
    (v : View number) :
  render Number_toString ls (selectedLift st) = Some v ->
  nth_error ls i = Some x ->
  dispatch Number_toString ls st (ClickEntry i) =
  {| selectedLift := Some (id x); hoverOpen := hoverOpen st |}.
Proof.
  intros Hv Hi. unfold dispatch. rewrite Hv.
  apply render_layers in Hv as (_ & _ & _ & He).
  rewrite He, nth_error_map, Hi. reflexivity.
Qed.

Lemma click_outside (ls : list (Lift number)) (st : HomeState) (i : nat) :
  nth_error ls i = None ->
  dispatch Number_toString ls st (ClickEntry i) = st.
Proof.
  intros Hi. unfold dispatch.
  destruct (render Number_toString ls (selectedLift st)) as [v|] eqn:Hv; [|reflexivity].
  apply render_layers in Hv as (_ & _ & _ & He).
  now rewrite He, nth_error_map, Hi.
Qed.

Lemma hover_keeps_selection (ls : list (Lift number)) (st : HomeState) (i : nat) :
  selectedLift (dispatch Number_toString ls st (HoverMarker i)) = selectedLift st /\
  selectedLift (dispatch Number_toString ls st (LeaveMarker i)) = selectedLift st.
Proof.
  unfold dispatch.
  destruct (render Number_toString ls (selectedLift st)) as [v|]; [|now split].
  split.
  - now destruct (nth_error (markers v) i).
  - unfold hover_leave. now destruct (eqb_option_nat (hoverOpen st) i).
Qed.

(** What one turn of the loop does to the selection: it keeps it, or a
    click on entry [i] set it to the id of lift [i]. *)
Lemma dispatch_selection (ls : list (Lift number)) (st : HomeState) (e : Event) :
  selectedLift (dispatch Number_toString ls st e) = selectedLift st \/
  exists i l, e = ClickEntry i /\ nth_error ls i = Some l /\
              selectedLift (dispatch Number_toString ls st e) = Some (id l).
Proof.
  destruct e as [i|i|i].
  - destruct (render Number_toString ls (selectedLift st)) as [v|] eqn:Hv.
    + destruct (nth_error ls i) as [l|] eqn:Hi.
      * right. exists i, l. rewrite (click_entry ls st i l v Hv Hi). auto.
      * left. now rewrite click_outside.
    + left. unfold dispatch. now rewrite Hv.
  - left. apply hover_keeps_selection.
  - left. apply hover_keeps_selection.
Qed.

End ViewFacts.

(** ** The seeded collection and the display tables *)

Lemma tables_total :
  (forall s, JS.get statusColors (Status_str s) <> None) /\
  (forall t, JS.get typeIcons (LiftType_str t) <> None) /\
  (forall g, JS.get difficultyColors (Difficulty_str g) <> None).
Proof.
  repeat split; intros []; discriminate.
Qed.

Lemma seed_unique_ids : unique_ids lifts.
Proof.
  unfold unique_ids. simpl.
  repeat constructor; simpl; intuition discriminate.
Qed.

Lemma seed_paths_nonempty : paths_nonempty lifts.
Proof. repeat constructor; discriminate. Qed.

(** C9. In the seeded collection every id is unique and every path has a
    first point, and the status, type and difficulty of every seeded lift
    has an entry in [statusColors], [typeIcons] and [difficultyColors]. *)
Theorem seed_invariant :
  unique_ids lifts /\
  paths_nonempty lifts /\
  Forall (fun l =>
            JS.get statusColors (Status_str (status l)) <> None /\
            JS.get typeIcons (LiftType_str (type l)) <> None /\
            JS.get difficultyColors (Difficulty_str (difficulty l)) <> None)
         lifts.
Proof.
  split; [exact seed_unique_ids|]. split; [exact seed_paths_nonempty|].
  repeat constructor; discriminate.
Qed.

(** ** The line layer *)

(** C1. For a lift whose path is [p0 :: rest], the [d] attribute of its line
    is [drawLiftLine] of the path; that string is a move-to to [p0]
    followed by a line-to to each point of [rest] in the order given; read
    back as path data it is the command [MoveTo p0] followed by one [LineTo]
    per point of [rest], and the points those commands pass through are the
    path itself, each once and in order. *)
Theorem drawLiftLine_move_then_lines {number : Type}
    (toStr : number -> string) (ofStr : string -> option number)
    (sel : option string) (l : Lift number)
    (p0 : Point number) (rest : list (Point number)) :
  numerals toStr ofStr ->
  path l = p0 :: rest ->
  d (render_path toStr sel l) = drawLiftLine toStr (path l) /\
  drawLiftLine toStr (path l) = move_then_lines toStr p0 rest /\
  exists cs,
    read_path ofStr (drawLiftLine toStr (path l)) = Some cs /\
    cs = MoveTo p0 :: map LineTo rest /\
    visited cs = path l.
Proof.
  intros Hnum Hp. split; [reflexivity|]. rewrite Hp. split.
  - apply drawLiftLine_nonempty.
  - exists (MoveTo p0 :: map LineTo rest). split; [|split].
    + now apply read_path_drawLiftLine.
    + reflexivity.
    + apply visited_commands.
Qed.

Lemma drawLiftLine_move_then_lines_witness :
  exists l : Lift Z,
    nth_error lifts 0 = Some l /\
    d (render_path JS.Z_toString None l) = "M 120 150 L 180 80 L 250 50" /\
    exists cs,
      read_path JS.Z_ofString (drawLiftLine JS.Z_toString (path l)) = Some cs /\
      visited cs = [(120, 150); (180, 80); (250, 50)]%Z.
Proof.
  eexists. split; [reflexivity|].
  destruct (drawLiftLine_move_then_lines JS.Z_toString JS.Z_ofString None
              {| id := "1"; name := "Blue Mountain Express"; status := open;
                 type := express; difficulty := intermediate;
                 path := [(120, 150); (180, 80); (250, 50)]%Z; waitTime := 5%Z |}
              (120, 150)%Z [(180, 80); (250, 50)]%Z Z_numerals eq_refl)
    as (Hd & _ & cs & Hr & _ & Hv).
  split; [exact Hd|]. exists cs. split; [exact Hr | exact Hv].
Defined.

(** C10. [drawLiftLine] has no guard for the empty list: there it returns
    ["M "], whose only token is the command letter, and which is not path
    data; its output reads as path data exactly when the point list is not
    empty. *)
Theorem drawLiftLine_empty_path {number : Type}
    (toStr : number -> string) (ofStr : string -> option number) :
  drawLiftLine toStr [] = "M " /\
  tokens (drawLiftLine toStr []) = ["M"] /\
  read_path ofStr (drawLiftLine toStr []) = None /\
  (numerals toStr ofStr ->
   forall points : list (Point number),
     read_path ofStr (drawLiftLine toStr points) <> None <-> points <> []).
Proof.
  split; [reflexivity|]. split; [reflexivity|]. split; [reflexivity|].
  intros Hnum [|p rest]; split.
  - intros H. now contradiction H.
  - intros H. now contradiction H.
  - discriminate.
  - intros _. rewrite (read_path_drawLiftLine toStr ofStr Hnum). discriminate.
Qed.

Lemma drawLiftLine_empty_path_witness :
  drawLiftLine JS.Z_toString [] = "M " /\
  (read_path JS.Z_ofString (drawLiftLine JS.Z_toString [(180, 300); (180, 250)]%Z) <> None
   <-> [(180, 300); (180, 250)]%Z <> []).
Proof.
  destruct (drawLiftLine_empty_path JS.Z_toString JS.Z_ofString) as (H0 & _ & _ & H).
  split; [exact H0|]. exact (H Z_numerals [(180, 300); (180, 250)]%Z).
Defined.

(** C3. The line of a lift is dashed exactly when the lift's status is
    [closed] ([stroke-dasharray] is ["5,5"]), and solid otherwise
    ([stroke-dasharray] is ["none"]); the attribute is the same under every
    selection. *)
Theorem stroke_dashed_iff_closed {number : Type} (toStr : number -> string)
    (ls : list (Lift number)) (sel sel' : option string)
    (v v' : View number) (i : nat) (l : Lift number) :
  render toStr ls sel = Some v ->
  render toStr ls sel' = Some v' ->
  nth_error ls i = Some l ->
  exists p p',
    nth_error (liftLines v) i = Some p /\
    nth_error (liftLines v') i = Some p' /\
    path_key p = id l /\
    (dashed p = true <-> status l = closed) /\
    (status l = closed -> strokeDasharray p = "5,5") /\
    (status l <> closed -> strokeDasharray p = "none") /\
    strokeDasharray p' = strokeDasharray p.
Proof.
  intros Hv Hv' Hi.
  apply render_layers in Hv as (_ & Hl & _ & _).
  apply render_layers in Hv' as (_ & Hl' & _ & _).
  exists (render_path toStr sel l), (render_path toStr sel' l).
  rewrite Hl, Hl', !nth_error_map, Hi.
  split; [reflexivity|]. split; [reflexivity|]. split; [reflexivity|].
  unfold dashed. cbn [render_path strokeDasharray].
  destruct (status l); simpl; repeat split; try congruence; try discriminate.
Qed.

Lemma stroke_dashed_iff_closed_witness :
  exists p p',
    strokeDasharray p = "5,5" /\ strokeDasharray p' = "5,5" /\ path_key p = "7".
Proof.
  pose (l := {| id := "7"; name := "Ridge"; status := closed; type := quad;
                difficulty := advanced; path := [(10, 20); (30, 40)]%Z;
                waitTime := 0%Z |}).
  destruct (stroke_dashed_iff_closed JS.Z_toString [l] None (Some "7") _ _ 0 l
              eq_refl eq_refl eq_refl)
    as (p & p' & _ & _ & Hk & _ & Hc & _ & Hs).
  exists p, p'. rewrite Hs. split; [|split].
  - apply Hc. reflexivity.
  - apply Hc. reflexivity.
  - exact Hk.
Defined.

(** ** Selection *)

Section SelectionFacts.

Context {number : Type}.
Variable Number_toString : number -> string.
Variable ls : list (Lift number).

Lemma select_sole (st : HomeState) (i : nat) (x : Lift number) :
  unique_ids ls -> paths_nonempty ls -> nth_error ls i = Some x ->
  selectedLift (dispatch Number_toString ls st (ClickEntry i)) = Some (id x) /\
  exists v,
    render Number_toString ls
      (selectedLift (dispatch Number_toString ls st (ClickEntry i))) = Some v /\
    selected_in_view v = ([id x], [id x], [id x]).
Proof.
  intros Hu Hp Hi.
  destruct (render_defined Number_toString ls (selectedLift st) Hp) as [v0 Hv0].
  rewrite (click_entry Number_toString ls st i x v0 Hv0 Hi).
  cbn [selectedLift]. split; [reflexivity|].
  destruct (render_defined Number_toString ls (Some (id x)) Hp) as [v Hv].
  exists v. split; [exact Hv|].
  rewrite (selected_keys Number_toString ls (Some (id x)) v Hv).
  cbv zeta. rewrite (sole_match x ls Hu (nth_error_In ls i Hi)). reflexivity.
Qed.

Lemma reachable_selection (st : HomeState) :
  reachable Number_toString ls st ->
  selectedLift st = None \/ exists l, In l ls /\ selectedLift st = Some (id l).
Proof.
  induction 1 as [|st e _ IH]; [now left|].
  destruct (dispatch_selection Number_toString ls st e) as [E|(i & l & _ & Hi & E)].
  - now rewrite E.
  - right. exists l. split; [exact (nth_error_In ls i Hi) | exact E].
Qed.

Lemma selection_stays (st : HomeState) (e : Event) :
  selectedLift st <> None ->
  selectedLift (dispatch Number_toString ls st e) <> None.
Proof.
  intros Hs.
  destruct (dispatch_selection Number_toString ls st e) as [E|(i & l & _ & _ & E)];
    rewrite E; [exact Hs | discriminate].
Qed.

End SelectionFacts.

(** C2. In a collection with unique ids, a click on the list entry of lift
    [x] leaves exactly one element in the selected visual state in each
    layer (emphasized line, enlarged marker, highlighted entry), the one of
    [x]; a following click on the entry of lift [y] leaves exactly the one
    of [y]. *)
Theorem select_replaces {number : Type} (toStr : number -> string)
    (ls : list (Lift number)) (st : HomeState) (i j : nat) (x y : Lift number) :
  unique_ids ls -> paths_nonempty ls ->
  nth_error ls i = Some x -> nth_error ls j = Some y ->
  let st1 := dispatch toStr ls st (ClickEntry i) in
  let st2 := dispatch toStr ls st1 (ClickEntry j) in
  (selectedLift st1 = Some (id x) /\
   exists v1, render toStr ls (selectedLift st1) = Some v1 /\
              selected_in_view v1 = ([id x], [id x], [id x])) /\
  (selectedLift st2 = Some (id y) /\
   exists v2, render toStr ls (selectedLift st2) = Some v2 /\
              selected_in_view v2 = ([id y], [id y], [id y])).
Proof.
  intros Hu Hp Hi Hj st1 st2. split.
  - exact (select_sole toStr ls st i x Hu Hp Hi).
  - exact (select_sole toStr ls st1 j y Hu Hp Hj).
Qed.

Lemma select_replaces_witness :
  selectedLift (run JS.Z_toString lifts initial [ClickEntry 0]) = Some "1" /\
  selectedLift (run JS.Z_toString lifts initial [ClickEntry 0; ClickEntry 2]) = Some "3" /\
  exists v2,
    Home (run JS.Z_toString lifts initial [ClickEntry 0; ClickEntry 2]) = Some v2 /\
    selected_in_view v2 = (["3"], ["3"], ["3"]).
Proof.
  destruct (select_replaces JS.Z_toString lifts initial 0 2 _ _
              seed_unique_ids seed_paths_nonempty eq_refl eq_refl)
    as [[H1 _] [H2 H3]].
  split; [exact H1|]. split; [exact H2 | exact H3].
Defined.

(** The worked example of the spec, on the seed: from [initial], a click on
    the entry of lift 1 selects it; its line is emphasized and solid, its
    marker is enlarged and sits at (120, 150). *)
Example click_first_entry :
  let st := dispatch JS.Z_toString lifts initial (ClickEntry 0) in
  selectedLift st = Some "1" /\
  exists v p m,
    Home st = Some v /\
    nth_error (liftLines v) 0 = Some p /\ nth_error (markers v) 0 = Some m /\
    emphasized p = true /\ dashed p = false /\
    enlarged m = true /\ (left m, top m) = (120, 150)%Z.
Proof.
  split; [reflexivity|].
  do 3 eexists. repeat split; reflexivity.
Qed.

(** C4. When the lift of list entry [i] is already the selected one, a click
    on that entry leaves the state as it is, so the rendered tree and the
    revealed panel are the same, and the selection is not cleared. *)
Theorem select_idempotent {number : Type} (toStr : number -> string)
    (ls : list (Lift number)) (st : HomeState) (i : nat) (x : Lift number) :
  nth_error ls i = Some x ->
  selectedLift st = Some (id x) ->
  let st' := dispatch toStr ls st (ClickEntry i) in
  st' = st /\
  render toStr ls (selectedLift st') = render toStr ls (selectedLift st) /\
  revealed toStr ls st' = revealed toStr ls st /\
  selectedLift st' <> None.
Proof.
  intros Hi Hs st'.
  assert (E : st' = st).
  { subst st'. destruct (render toStr ls (selectedLift st)) as [v|] eqn:Hv.
    - rewrite (click_entry toStr ls st i x v Hv Hi).
      destruct st as [s h]. simpl in Hs. now rewrite Hs.
    - unfold dispatch. now rewrite Hv. }
  rewrite E. repeat split. now rewrite Hs.
Qed.

Lemma select_idempotent_witness :
  let st := {| selectedLift := Some "2"; hoverOpen := Some 0 |} in
  dispatch JS.Z_toString lifts st (ClickEntry 1) = st.
Proof.
  intros st.
  exact (proj1 (select_idempotent JS.Z_toString lifts st 1 _ eq_refl eq_refl)).
Defined.

(** C5. Hovering a marker, and leaving it, never changes [selectedLift]:
    whatever the collection, the state and the marker. *)
Theorem hover_frame {number : Type} (toStr : number -> string)
    (ls : list (Lift number)) (st : HomeState) (i : nat) :
  selectedLift (dispatch toStr ls st (HoverMarker i)) = selectedLift st /\
  selectedLift (dispatch toStr ls st (LeaveMarker i)) = selectedLift st.
Proof. apply hover_keeps_selection. Qed.

(** C8. [selectedLift] starts as none; one turn of the loop changes it only
    when the event is a click on a list entry, and then to the id of that
    entry's lift; so in every reachable state it is none or the id of a lift
    of the collection, and once set it is never none again. *)
Theorem selection_domain {number : Type} (toStr : number -> string)
    (ls : list (Lift number)) :
  selectedLift initial = None /\
  (forall st e,
     selectedLift (dispatch toStr ls st e) <> selectedLift st ->
     exists i l, e = ClickEntry i /\ nth_error ls i = Some l /\
                 selectedLift (dispatch toStr ls st e) = Some (id l)) /\
  (forall st, reachable toStr ls st ->
     selectedLift st = None \/ exists l, In l ls /\ selectedLift st = Some (id l)) /\
  (forall st e, selectedLift st <> None ->
     selectedLift (dispatch toStr ls st e) <> None).
Proof.
  split; [reflexivity|]. split; [|split].
  - intros st e Hne.
    destruct (dispatch_selection toStr ls st e) as [E|H]; [contradiction | exact H].
  - apply reachable_selection.
  - apply selection_stays.
Qed.

Lemma selection_domain_witness :
  let st := dispatch JS.Z_toString lifts initial (ClickEntry 2) in
  (selectedLift st = None \/ exists l, In l lifts /\ selectedLift st = Some (id l)) /\
  selectedLift (dispatch JS.Z_toString lifts st (LeaveMarker 2)) <> None.
Proof.
  intros st.
  destruct (selection_domain JS.Z_toString lifts) as (_ & _ & Hr & Hk).
  split.
  - apply Hr. apply reachable_dispatch. apply reachable_initial.
  - apply Hk. discriminate.
Defined.

(** ** Markers and hover panels *)

Section MarkerFacts.

Context {number : Type}.
Variable Number_toString : number -> string.

Lemma render_marker_fields (sel : option string) (l : Lift number) (m : Marker number) :
  render_marker Number_toString sel l = Some m ->
  marker_key m = id l /\
  (exists p0, nth_error (path l) 0 = Some p0 /\ left m = fst p0 /\ top m = snd p0) /\
  has_class (fill_of_status (status l)) (dot_className m) = true /\
  icon m = JS.get typeIcons (LiftType_str (type l)) /\
  content m = render_card Number_toString l.
Proof.
  unfold render_marker. destruct (path l) as [|p0 rest]; [discriminate|].
  cbn [nth_error bind]. intros [= <-].
  cbn [marker_key left top dot_className icon content].
  split; [reflexivity|]. split; [now exists p0|].
  split; [|split; reflexivity].
  now destruct (status l).
Qed.

Lemma hover_reveals (ls : list (Lift number)) (st : HomeState) (i : nat)
    (l : Lift number) :
  paths_nonempty ls -> nth_error ls i = Some l ->
  revealed Number_toString ls (dispatch Number_toString ls st (HoverMarker i)) =
  Some (render_card Number_toString l).
Proof.
  intros Hp Hi.
  destruct (render_defined Number_toString ls (selectedLift st) Hp) as [v Hv].
  pose proof Hv as Hl. apply render_layers in Hl as (_ & _ & Hm & _).
  destruct (mapM_nth _ ls (markers v) i l Hm Hi) as (m & Hmi & Hml).
  unfold dispatch. rewrite Hv, Hmi.
  unfold revealed, hover_enter. cbn [selectedLift hoverOpen]. rewrite Hv. cbn [bind].
  rewrite Hmi. cbn [bind].
  now rewrite (proj2 (proj2 (proj2 (proj2 (render_marker_fields _ l m Hml))))).
Qed.

End MarkerFacts.

Lemma render_marker_dot {number : Type} (toStr : number -> string)
    (sel : option string) (l : Lift number) (m : Marker number) :
  render_marker toStr sel l = Some m ->
  tokens (dot_className m) =
    ["w-6"; "h-6"; "rounded-full"; fill_of_status (status l); "text-white";
     "shadow-lg"; "flex"; "items-center"; "justify-center";
     "border-2"; "border-white"; "transform";
     "-translate-x-1/2"; "-translate-y-1/2"] /\
  fill_classes (dot_className m) = [fill_of_status (status l)].
Proof.
  unfold render_marker. destruct (path l) as [|p0 rest]; [discriminate|].
  cbn [nth_error bind]. intros [= <-]. cbn [dot_className].
  now destruct (status l).
Qed.

Lemma legend_items :
  map render_legend_item statusColors =
  map (fun s => {| legend_key := Status_str s;
                   legend_dot_className := "w-3 h-3 rounded-full " ++ fill_of_status s;
                   legend_label := Status_str s |})
      [open; closed; hold].
Proof. reflexivity. Qed.

Lemma Status_str_inj (s s' : Status) : Status_str s = Status_str s' -> s = s'.
Proof. destruct s, s'; simpl; intros H; try reflexivity; discriminate H. Qed.

(** C6. When every path has a first point, the marker layer has one marker
    per lift, in the order of the collection: marker [i] carries the id of
    lift [i], sits at that lift's [path[0]], has the fill class of the
    lift's status (open: emerald, closed: red, hold: amber) as its only
    fill class, among a fixed list of other classes, and the glyph that
    [typeIcons] gives for the lift's type. *)
Theorem one_marker_per_lift {number : Type} (toStr : number -> string)
    (ls : list (Lift number)) (sel : option string) :
  paths_nonempty ls ->
  exists v,
    render toStr ls sel = Some v /\
    List.length (markers v) = List.length ls /\
    forall i l, nth_error ls i = Some l ->
      exists m p0,
        nth_error (markers v) i = Some m /\
        marker_key m = id l /\
        nth_error (path l) 0 = Some p0 /\
        left m = fst p0 /\ top m = snd p0 /\
        has_class (fill_of_status (status l)) (dot_className m) = true /\
        fill_classes (dot_className m) = [fill_of_status (status l)] /\
        tokens (dot_className m) =
          ["w-6"; "h-6"; "rounded-full"; fill_of_status (status l); "text-white";
           "shadow-lg"; "flex"; "items-center"; "justify-center";
           "border-2"; "border-white"; "transform";
           "-translate-x-1/2"; "-translate-y-1/2"] /\
        icon m = JS.get typeIcons (LiftType_str (type l)) /\
        icon m <> None.
Proof.
  intros Hp. destruct (render_defined toStr ls sel Hp) as [v Hv].
  exists v. split; [exact Hv|].
  apply render_layers in Hv as (_ & _ & Hm & _).
  split; [exact (mapM_length _ ls (markers v) Hm)|].
  intros i l Hi.
  destruct (mapM_nth _ ls (markers v) i l Hm Hi) as (m & Hmi & Hml).
  destruct (render_marker_fields toStr sel l m Hml)
    as (Hk & (p0 & Hp0 & Hx & Hy) & Hf & Hic & _).
  destruct (render_marker_dot toStr sel l m Hml) as (Ht & Hfc).
  exists m, p0. repeat split; try assumption.
  rewrite Hic. apply tables_total.
Qed.

Lemma one_marker_per_lift_witness :
  exists v,
    Home initial = Some v /\
    List.length (markers v) = 3 /\
    exists m, nth_error (markers v) 2 = Some m /\
              left m = 180%Z /\ top m = 300%Z /\
              has_class "bg-amber-500" (dot_className m) = true /\
              fill_classes (dot_className m) = ["bg-amber-500"].
Proof.
  destruct (one_marker_per_lift JS.Z_toString lifts None seed_paths_nonempty)
    as (v & Hv & Hlen & H).
  exists v. split; [exact Hv|]. split; [exact Hlen|].
  destruct (H 2 _ eq_refl) as (m & p0 & Hm & _ & Hp0 & Hx & Hy & Hf & Hfc & _).
  injection Hp0 as <-.
  exists m. split; [exact Hm|]. split; [exact Hx|]. split; [exact Hy|].
  split; [exact Hf | exact Hfc].
Defined.

(** C7. Hovering the marker of a lift reveals a panel with the lift's name,
    a status badge and a difficulty badge (the status and the difficulty in
    upper case) and the text ["Wait time: {n} minutes"] for the lift's wait
    time [n]; for a lift with status hold and wait time 3 the panel contains
    ["3 minutes"] and its status badge reads ["HOLD"]. *)
Theorem hover_panel :
  (forall (number : Type) (toStr : number -> string) (ls : list (Lift number))
          (st : HomeState) (i : nat) (l : Lift number),
      paths_nonempty ls -> nth_error ls i = Some l ->
      exists c,
        revealed toStr ls (dispatch toStr ls st (HoverMarker i)) = Some c /\
        card_heading c = name l /\
        badge_text (card_status c) = JS.toUpperCase (Status_str (status l)) /\
        badge_text (card_difficulty c) = JS.toUpperCase (Difficulty_str (difficulty l)) /\
        card_wait c = "Wait time: " ++ toStr (waitTime l) ++ " minutes") /\
  (forall (ls : list (Lift Z)) (st : HomeState) (i : nat) (l : Lift Z),
      paths_nonempty ls -> nth_error ls i = Some l ->
      status l = hold -> waitTime l = 3%Z ->
      exists c,
        revealed JS.Z_toString ls (dispatch JS.Z_toString ls st (HoverMarker i)) = Some c /\
        card_wait c = "Wait time: 3 minutes" /\
        contains "3 minutes" (card_wait c) = true /\
        badge_text (card_status c) = "HOLD").
Proof.
  split.
  - intros number toStr ls st i l Hp Hi.
    exists (render_card toStr l). split; [now apply hover_reveals|].
    repeat split.
  - intros ls st i l Hp Hi Hs Hw.
    exists (render_card JS.Z_toString l). split; [now apply hover_reveals|].
    cbn [render_card card_wait card_status badge_text]. rewrite Hs, Hw.
    repeat split.
Qed.

Lemma hover_panel_witness :
  exists c,
    revealed JS.Z_toString lifts
      (dispatch JS.Z_toString lifts initial (HoverMarker 2)) = Some c /\
    card_wait c = "Wait time: 3 minutes" /\
    contains "3 minutes" (card_wait c) = true /\
    badge_text (card_status c) = "HOLD".
Proof.
  exact (proj2 hover_panel lifts initial 2 _ seed_paths_nonempty eq_refl eq_refl eq_refl).
Defined.

(** * Further properties of the page *)

(** ** Lists *)

Section ListFacts.

Context {A B : Type}.

Lemma mapM_keys {K : Type} (f : A -> option B) (kb : B -> K) (ka : A -> K)
    (l : list A) (bs : list B) :
  (forall a b, f a = Some b -> kb b = ka a) ->
  mapM f l = Some bs -> map kb bs = map ka l.
Proof.
  intros Hf. revert bs. induction l as [|a l IH]; intros bs H.
  - injection H as <-. reflexivity.
  - apply mapM_cons_Some in H as (b & bs' & Hb & Hl & ->).
    simpl. now rewrite (Hf a b Hb), (IH bs' Hl).
Qed.

Lemma mapM_Forall2 (f g : A -> option B) (R : B -> B -> Prop)
    (l : list A) (bs bs' : list B) :
  (forall a b b', f a = Some b -> g a = Some b' -> R b b') ->
  mapM f l = Some bs -> mapM g l = Some bs' -> Forall2 R bs bs'.
Proof.
  intros HR. revert bs bs'. induction l as [|a l IH]; intros bs bs' H H'.
  - injection H as <-. injection H' as <-. constructor.
  - apply mapM_cons_Some in H as (b & cs & Hb & Hl & ->).
    apply mapM_cons_Some in H' as (b' & cs' & Hb' & Hl' & ->).
    constructor; [now apply (HR a) | now apply IH].
Qed.

Lemma map_Forall2 (f g : A -> B) (R : B -> B -> Prop) (l : list A) :
  (forall a, R (f a) (g a)) -> Forall2 R (map f l) (map g l).
Proof. intros HR. induction l; simpl; constructor; auto. Qed.

Lemma mapM_None_iff (f : A -> option B) (l : list A) :
  mapM f l = None <-> exists a, In a l /\ f a = None.
Proof.
  induction l as [|a l IH]; simpl.
  - split; [discriminate | now intros (a & [] & _)].
  - destruct (f a) as [b|] eqn:Hb; simpl.
    + destruct (mapM f l) as [bs|]; simpl.
      * split; [discriminate|]. intros (a' & [<-|Hin] & Ha').
        -- congruence.
        -- assert (E : Some bs = None) by (apply IH; eauto). discriminate E.
      * split; [|reflexivity]. intros _.
        destruct (proj1 IH eq_refl) as (a' & Hin & Ha'). eauto.
    + split; [|reflexivity]. intros _. exists a. auto.
Qed.

End ListFacts.

(** ** When the render throws *)

(** X1. [Home] throws exactly when some lift of the collection has an empty
    path ([lift.path[0][0]] of the marker layer), whatever the selection. *)
Theorem render_throws_iff {number : Type} (toStr : number -> string)
    (ls : list (Lift number)) (sel : option string) :
  render toStr ls sel = None <-> exists l, In l ls /\ path l = [].
Proof.
  split.
  - intros H. unfold render in H.
    destruct (mapM (render_marker toStr sel) ls) as [ms|] eqn:Hm; [discriminate|].
    apply mapM_None_iff in Hm as (l & Hin & Hl). exists l. split; [exact Hin|].
    unfold render_marker in Hl. destruct (path l); [reflexivity | discriminate].
  - intros (l & Hin & Hl). now apply (render_undefined toStr ls sel l).
Qed.

Lemma render_throws_iff_witness :
  render JS.Z_toString
    [ {| id := "8"; name := "Stub"; status := open; type := quad;
         difficulty := beginner; path := []; waitTime := 0%Z |} ] None = None.
Proof.
  apply (proj2 (render_throws_iff JS.Z_toString _ None)).
  eexists. split; [left; reflexivity | reflexivity].
Defined.

(** ** The three layers side by side *)

(** X2. Every layer lists the lifts in the order of the collection, keyed
    by their ids, and the click handler of an entry sets the id the entry
    is keyed by; with unique ids the keys of a layer are pairwise
    distinct. *)
Theorem layers_keyed_by_id {number : Type} (toStr : number -> string)
    (ls : list (Lift number)) (sel : option string) (v : View number) :
  render toStr ls sel = Some v ->
  map path_key (liftLines v) = map id ls /\
  map marker_key (markers v) = map id ls /\
  map entry_key (entries v) = map id ls /\
  map onClick (entries v) = map SetSelectedLift (map entry_key (entries v)) /\
  (unique_ids ls ->
   NoDup (map path_key (liftLines v)) /\
   NoDup (map marker_key (markers v)) /\
   NoDup (map entry_key (entries v))).
Proof.
  intros Hv. apply render_layers in Hv as (_ & Hl & Hm & He).
  assert (K1 : map path_key (liftLines v) = map id ls)
    by (rewrite Hl, map_map; reflexivity).
  assert (K2 : map marker_key (markers v) = map id ls).
  { apply (mapM_keys (render_marker toStr sel) marker_key id ls (markers v)); [|exact Hm].
    intros a b Hb. apply (enlarged_marker toStr sel a b Hb). }
  assert (K3 : map entry_key (entries v) = map id ls)
    by (rewrite He, map_map; reflexivity).
  split; [exact K1|]. split; [exact K2|]. split; [exact K3|]. split.
  - rewrite He, !map_map. reflexivity.
  - intros Hu. rewrite K1, K2, K3. auto.
Qed.

Lemma layers_keyed_by_id_witness :
  exists v,
    Home initial = Some v /\
    map marker_key (markers v) = ["1"; "2"; "3"] /\
    NoDup (map entry_key (entries v)).
Proof.
  eexists. split; [reflexivity|].
  destruct (layers_keyed_by_id JS.Z_toString lifts None _ eq_refl)
    as (_ & K2 & _ & _ & Hu).
  split; [exact K2|]. exact (proj2 (proj2 (Hu seed_unique_ids))).
Defined.

Section AtMostOne.

Context {number : Type}.

Lemma match_present (x : string) (ls : list (Lift number)) :
  unique_ids ls -> In x (map id ls) ->
  map id (filter (fun l => JS.strict_eq (Some x) (id l)) ls) = [x].
Proof.
  intros Hu Hin. apply in_map_iff in Hin as (lx & <- & Hlx).
  now apply sole_match.
Qed.

Lemma match_none (ls : list (Lift number)) :
  filter (fun l => JS.strict_eq None (id l)) ls = [].
Proof. induction ls; simpl; auto. Qed.

End AtMostOne.

(** X3. With unique ids, in every render the three layers show the same
    lifts in the selected visual state, and at most one: none while nothing
    is selected or the selected id is not in the collection, otherwise the
    lift with the selected id alone. *)
Theorem at_most_one_selected {number : Type} (toStr : number -> string)
    (ls : list (Lift number)) (sel : option string) (v : View number) :
  unique_ids ls ->
  render toStr ls sel = Some v ->
  exists h,
    selected_in_view v = (h, h, h) /\
    (List.length h <= 1)%nat /\
    (sel = None -> h = []) /\
    (forall x, sel = Some x -> ~ In x (map id ls) -> h = []) /\
    (forall x, sel = Some x -> In x (map id ls) -> h = [x]).
Proof.
  intros Hu Hv. rewrite (selected_keys toStr ls sel v Hv). cbv zeta.
  exists (map id (filter (fun l => JS.strict_eq sel (id l)) ls)).
  split; [reflexivity|].
  destruct sel as [x|].
  - destruct (in_dec string_dec x (map id ls)) as [Hin|Hout].
    + rewrite (match_present x ls Hu Hin). simpl.
      split; [lia|]. split; [discriminate|]. split.
      * intros y [= <-] Hy. contradiction.
      * intros y [= <-] _. reflexivity.
    + rewrite (no_match_outside x ls Hout). simpl.
      split; [lia|]. split; [reflexivity|]. split.
      * reflexivity.
      * intros y [= <-] Hy. contradiction.
  - rewrite match_none. simpl.
    split; [lia|]. split; [reflexivity|]. split; discriminate.
Qed.

Lemma at_most_one_selected_witness :
  exists v,
    Home {| selectedLift := Some "4"; hoverOpen := None |} = Some v /\
    selected_in_view v = ([], [], []).
Proof.
  destruct (render_defined JS.Z_toString lifts (Some "4") seed_paths_nonempty) as [v Hv].
  exists v. split; [exact Hv|].
  destruct (at_most_one_selected JS.Z_toString lifts (Some "4") v
              seed_unique_ids Hv) as (h & Hh & _ & _ & Hout & _).
  rewrite Hh.
  rewrite (Hout "4" eq_refl); [reflexivity|].
  simpl. intuition discriminate.
Defined.

(** ** What a change of selection touches *)

Section Reselect.

Context {number : Type}.
Variable Number_toString : number -> string.

Lemma strict_eq_true (sel : option string) (x : string) :
  JS.strict_eq sel x = true <-> sel = Some x.
Proof.
  destruct sel as [y|]; simpl.
  - rewrite String.eqb_eq. split; congruence.
  - split; discriminate.
Qed.

Lemma strict_eq_agree (sel sel' : option string) (x : string) :
  (sel = Some x <-> sel' = Some x) -> JS.strict_eq sel x = JS.strict_eq sel' x.
Proof.
  intros H. rewrite <- !strict_eq_true in H.
  destruct (JS.strict_eq sel x), (JS.strict_eq sel' x); intuition congruence.
Qed.

Lemma render_marker_same (sel sel' : option string) (l : Lift number)
    (m m' : Marker number) :
  render_marker Number_toString sel l = Some m ->
  render_marker Number_toString sel' l = Some m' ->
  same_marker m m'.
Proof.
  unfold render_marker. destruct (path l) as [|p0 rest]; [discriminate|].
  cbn [nth_error bind]. intros [= <-] [= <-]. repeat split.
Qed.


Lemma elements_unselected (sel sel' : option string) (l : Lift number) :
  JS.strict_eq sel (id l) = JS.strict_eq sel' (id l) ->
  render_path Number_toString sel l = render_path Number_toString sel' l /\
  render_marker Number_toString sel l = render_marker Number_toString sel' l /\
  render_entry Number_toString sel l = render_entry Number_toString sel' l.
Proof.
  intros E. unfold render_path, render_marker, render_entry. now rewrite E.
Qed.

End Reselect.

(** X4. Two renders of one collection under different selections differ at
    most in the attributes that carry the visual weight: the legend is the
    same, and position by position the lines have the same key, path data,
    fill, class and dash pattern, the markers the same key, anchor, dot,
    glyph and hover card, the list entries the same key, handler, glyph,
    texts and badges. *)
Theorem selection_changes_weight_only {number : Type} (toStr : number -> string)
    (ls : list (Lift number)) (sel sel' : option string) (v v' : View number) :
  render toStr ls sel = Some v ->
  render toStr ls sel' = Some v' ->
  legend v = legend v' /\
  Forall2 same_line (liftLines v) (liftLines v') /\
  Forall2 same_marker (markers v) (markers v') /\
  Forall2 same_entry (entries v) (entries v').
Proof.
  intros Hv Hv'.
  apply render_layers in Hv as (Hg & Hl & Hm & He).
  apply render_layers in Hv' as (Hg' & Hl' & Hm' & He').
  rewrite Hg, Hg', Hl, Hl', He, He'.
  split; [reflexivity|]. split; [|split].
  - apply map_Forall2. intros l. repeat split.
  - apply (mapM_Forall2 (render_marker toStr sel) (render_marker toStr sel')
             same_marker ls _ _ (render_marker_same toStr sel sel') Hm Hm').
  - apply map_Forall2. intros l. repeat split.
Qed.

Lemma selection_changes_weight_only_witness :
  exists v v',
    Home initial = Some v /\
    Home {| selectedLift := Some "2"; hoverOpen := None |} = Some v' /\
    Forall2 same_line (liftLines v) (liftLines v').
Proof.
  destruct (render_defined JS.Z_toString lifts None seed_paths_nonempty) as [v Hv].
  destruct (render_defined JS.Z_toString lifts (Some "2") seed_paths_nonempty) as [v' Hv'].
  exists v, v'. split; [exact Hv|]. split; [exact Hv'|].
  exact (proj1 (proj2 (selection_changes_weight_only JS.Z_toString lifts _ _ v v' Hv Hv'))).
Defined.

(** X5. A lift that is selected under both selections, or under neither,
    is rendered identically under both, in all three layers: moving the
    selection from one lift to another leaves the elements of every other
    lift as they were. *)
Theorem reselect_leaves_others {number : Type} (toStr : number -> string)
    (ls : list (Lift number)) (sel sel' : option string) (v v' : View number)
    (i : nat) (l : Lift number) :
  render toStr ls sel = Some v ->
  render toStr ls sel' = Some v' ->
  nth_error ls i = Some l ->
  (sel = Some (id l) <-> sel' = Some (id l)) ->
  nth_error (liftLines v) i = nth_error (liftLines v') i /\
  nth_error (markers v) i = nth_error (markers v') i /\
  nth_error (entries v) i = nth_error (entries v') i.
Proof.
  intros Hv Hv' Hi Hs.
  apply render_layers in Hv as (_ & Hl & Hm & He).
  apply render_layers in Hv' as (_ & Hl' & Hm' & He').
  destruct (elements_unselected toStr sel sel' l (strict_eq_agree sel sel' (id l) Hs))
    as (Ep & Em & Ee).
  rewrite Hl, Hl', He, He', !nth_error_map, Hi. simpl.
  split; [now rewrite Ep|]. split; [|now rewrite Ee].
  destruct (mapM_nth _ ls (markers v) i l Hm Hi) as (m & Hmi & Hml).
  destruct (mapM_nth _ ls (markers v') i l Hm' Hi) as (m' & Hmi' & Hml').
  rewrite Hmi, Hmi'. congruence.
Qed.

Lemma reselect_leaves_others_witness :
  exists v v',
    Home {| selectedLift := Some "1"; hoverOpen := None |} = Some v /\
    Home {| selectedLift := Some "3"; hoverOpen := None |} = Some v' /\
    nth_error (markers v) 1 = nth_error (markers v') 1.
Proof.
  destruct (render_defined JS.Z_toString lifts (Some "1") seed_paths_nonempty) as [v Hv].
  destruct (render_defined JS.Z_toString lifts (Some "3") seed_paths_nonempty) as [v' Hv'].
  exists v, v'. split; [exact Hv|]. split; [exact Hv'|].
  refine (proj1 (proj2 (reselect_leaves_others JS.Z_toString lifts _ _ v v' 1 _
                          Hv Hv' eq_refl _))).
  split; discriminate.
Defined.

(** ** Sequences of events *)

Section Replay.

Context {number : Type}.
Variable Number_toString : number -> string.
Variable ls : list (Lift number).

Lemma dispatch_select_step (st : HomeState) (e : Event) :
  paths_nonempty ls ->
  selectedLift (dispatch Number_toString ls st e) = select_step ls (selectedLift st) e.
Proof.
  intros Hp. destruct e as [i|i|i]; simpl.
  - destruct (render_defined Number_toString ls (selectedLift st) Hp) as [v Hv].
    destruct (nth_error ls i) as [l|] eqn:Hi.
    + now rewrite (click_entry Number_toString ls st i l v Hv Hi).
    + now rewrite (click_outside Number_toString ls st i Hi).
  - apply hover_keeps_selection.
  - apply hover_keeps_selection.
Qed.

Lemma run_selection (st : HomeState) (events : list Event) :
  paths_nonempty ls ->
  selectedLift (run Number_toString ls st events) =
  selection_after ls (selectedLift st) events.
Proof.
  intros Hp. revert st. induction events as [|e events IH]; intros st; [reflexivity|].
  unfold run, selection_after in *. simpl.
  now rewrite IH, dispatch_select_step.
Qed.



End Replay.

(** X6. When every path has a first point, the selection after any sequence
    of events is the one obtained by replaying the clicks on the collection
    alone: hover events and clicks outside the list do not count, and the
    last click on an entry decides. *)
Theorem selection_replay {number : Type} (toStr : number -> string)
    (ls : list (Lift number)) (st : HomeState) (events : list Event) :
  paths_nonempty ls ->
  selectedLift (run toStr ls st events) = selection_after ls (selectedLift st) events /\
  (forall i l, nth_error ls i = Some l ->
     selectedLift (run toStr ls st (events ++ [ClickEntry i])) = Some (id l)) /\
  (forall i, selectedLift (run toStr ls st (events ++ [HoverMarker i])) =
             selectedLift (run toStr ls st events)) /\
  (forall i, nth_error ls i = None ->
     selectedLift (run toStr ls st (events ++ [ClickEntry i])) =
     selectedLift (run toStr ls st events)).
Proof.
  intros Hp. split; [now apply run_selection|].
  repeat split; intros i; intros; rewrite !run_selection by assumption;
    unfold selection_after; rewrite fold_left_app; simpl.
  - now rewrite H.
  - reflexivity.
  - now rewrite H.
Qed.

Lemma selection_replay_witness :
  selectedLift
    (run JS.Z_toString lifts initial
       [ClickEntry 1; HoverMarker 0; ClickEntry 5; ClickEntry 2; LeaveMarker 0]) =
  Some "3".
Proof.
  exact (proj1 (selection_replay JS.Z_toString lifts initial
                  [ClickEntry 1; HoverMarker 0; ClickEntry 5; ClickEntry 2; LeaveMarker 0]
                  seed_paths_nonempty)).
Defined.


(** ** Classes, glyphs and texts *)

(** X8. Whatever the status, type and difficulty of a lift, no lookup in
    the display tables comes back undefined: the marker has a glyph and no
    class [undefined], and the badges of its hover card and of its list
    entry have a class. *)
Theorem no_undefined_class {number : Type} (toStr : number -> string)
    (sel : option string) (l : Lift number) (m : Marker number) :
  render_marker toStr sel l = Some m ->
  icon m <> None /\
  has_class "undefined" (dot_className m) = false /\
  badge_className (card_status (content m)) <> None /\
  badge_className (card_difficulty (content m)) <> None /\
  entry_icon (render_entry toStr sel l) <> None /\
  badge_className (entry_status (render_entry toStr sel l)) <> None /\
  badge_className (entry_difficulty (render_entry toStr sel l)) <> None.
Proof.
  unfold render_marker. destruct (path l) as [|p0 rest]; [discriminate|].
  cbn [nth_error bind]. intros [= <-].
  cbn [icon dot_className content render_card card_status card_difficulty
       badge_className render_entry entry_icon entry_status entry_difficulty].
  destruct (status l), (type l), (difficulty l);
    repeat split; solve [discriminate | reflexivity].
Qed.

Lemma no_undefined_class_witness :
  exists m : Marker Z,
    icon m = Some "🚠" /\ has_class "undefined" (dot_className m) = false.
Proof.
  pose (l := {| id := "7"; name := "Ridge"; status := closed; type := quad;
                difficulty := advanced; path := [(10, 20)]%Z; waitTime := 0%Z |}).
  destruct (render_marker JS.Z_toString None l) as [m|] eqn:Hm; [|discriminate Hm].
  exists m. split.
  - injection Hm as <-. reflexivity.
  - exact (proj1 (proj2 (no_undefined_class JS.Z_toString None l m Hm))).
Defined.

(** X9. The legend has one item per status, in the order open, closed,
    hold, labelled by the status. The dot of the item of a status has
    exactly the classes [w-3 h-3 rounded-full] and the fill of that status,
    so not the text class of the table entry; and its fill classes are
    those of the dot of every marker whose lift has that status: that one
    fill and no other. *)
Theorem legend_matches_markers {number : Type} (toStr : number -> string)
    (ls : list (Lift number)) (sel : option string) (v : View number) :
  render toStr ls sel = Some v ->
  map legend_key (legend v) = map Status_str [open; closed; hold] /\
  map legend_label (legend v) = map legend_key (legend v) /\
  (forall s : Status,
     exists item, In item (legend v) /\ legend_key item = Status_str s) /\
  (forall (item : LegendItem) (s : Status),
     In item (legend v) -> legend_key item = Status_str s ->
     legend_label item = Status_str s /\
     tokens (legend_dot_className item) =
       ["w-3"; "h-3"; "rounded-full"; fill_of_status s] /\
     fill_classes (legend_dot_className item) = [fill_of_status s] /\
     has_class "text-white" (legend_dot_className item) = false) /\
  (forall (item : LegendItem) (i : nat) (l : Lift number) (m : Marker number),
     In item (legend v) -> legend_key item = Status_str (status l) ->
     nth_error ls i = Some l -> nth_error (markers v) i = Some m ->
     fill_classes (dot_className m) = fill_classes (legend_dot_className item) /\
     fill_classes (dot_className m) = [fill_of_status (status l)]).
Proof.
  intros Hv. apply render_layers in Hv as (Hg & _ & Hms & _).
  rewrite Hg, legend_items.
  assert (Hitem : forall (item : LegendItem) (s : Status),
             In item
               (map (fun s => {| legend_key := Status_str s;
                                 legend_dot_className :=
                                   "w-3 h-3 rounded-full " ++ fill_of_status s;
                                 legend_label := Status_str s |})
                    [open; closed; hold]) ->
             legend_key item = Status_str s ->
             item = {| legend_key := Status_str s;
                       legend_dot_className := "w-3 h-3 rounded-full " ++ fill_of_status s;
                       legend_label := Status_str s |}).
  { intros item s Hin Hk. apply in_map_iff in Hin as (s' & <- & _).
    cbn [legend_key] in Hk. now rewrite (Status_str_inj s' s Hk). }
  split; [reflexivity|]. split; [reflexivity|]. split; [|split].
  - intros s.
    exists {| legend_key := Status_str s;
              legend_dot_className := "w-3 h-3 rounded-full " ++ fill_of_status s;
              legend_label := Status_str s |}.
    split; [|reflexivity].
    apply in_map_iff. exists s. split; [reflexivity|].
    destruct s; simpl; auto.
  - intros item s Hin Hk. rewrite (Hitem item s Hin Hk).
    destruct s; repeat split.
  - intros item i l m Hin Hk Hi Hm.
    destruct (mapM_nth _ ls (markers v) i l Hms Hi) as (m0 & Hm0 & Hml).
    assert (m0 = m) as -> by congruence.
    rewrite (proj2 (render_marker_dot toStr sel l m Hml)).
    rewrite (Hitem item (status l) Hin Hk). cbn [legend_dot_className].
    split; [|reflexivity]. now destruct (status l).
Qed.

Lemma legend_matches_markers_witness :
  exists (item : LegendItem) (m : Marker Z),
    legend_key item = "hold" /\
    fill_classes (dot_className m) = fill_classes (legend_dot_className item) /\
    fill_classes (dot_className m) = ["bg-amber-500"].
Proof.
  pose (l := {| id := "3"; name := "Beginner Magic Carpet"; status := hold;
                type := magic_carpet; difficulty := beginner;
                path := [(180, 300); (180, 250)]%Z; waitTime := 3%Z |}).
  destruct (render_defined JS.Z_toString [l] None) as [v Hv];
    [repeat constructor; discriminate|].
  pose proof (render_layers JS.Z_toString [l] None v Hv) as (_ & _ & Hms & _).
  destruct (mapM_nth _ [l] (markers v) 0 l Hms eq_refl) as (m & Hm & _).
  pose (item := render_legend_item ("hold", "bg-amber-500 text-white")).
  destruct (proj2 (proj2 (proj2 (proj2
              (legend_matches_markers JS.Z_toString [l] None v Hv))))
              item 0 l m) as (Hsame & Hfill).
  - apply render_layers in Hv as (Hg & _). rewrite Hg. simpl. auto.
  - reflexivity.
  - reflexivity.
  - exact Hm.
  - exists item, m. split; [reflexivity|].
    split; [exact Hsame | exact Hfill].
Defined.

(** X10. The list entry and the marker at the same position describe the
    same lift: same key, name and glyph, same badge classes, the badge
    texts of the hover card are those of the entry in upper case, and the
    entry is highlighted exactly when the marker is enlarged. *)
Theorem entry_matches_marker {number : Type} (toStr : number -> string)
    (ls : list (Lift number)) (sel : option string) (v : View number)
    (i : nat) (e : ListEntry) (m : Marker number) :
  render toStr ls sel = Some v ->
  nth_error (entries v) i = Some e ->
  nth_error (markers v) i = Some m ->
  entry_key e = marker_key m /\
  entry_name e = card_heading (content m) /\
  entry_icon e = icon m /\
  badge_className (entry_status e) = badge_className (card_status (content m)) /\
  badge_className (entry_difficulty e) = badge_className (card_difficulty (content m)) /\
  badge_text (card_status (content m)) = JS.toUpperCase (badge_text (entry_status e)) /\
  badge_text (card_difficulty (content m)) =
    JS.toUpperCase (badge_text (entry_difficulty e)) /\
  highlighted e = enlarged m.
Proof.
  intros Hv He Hm.
  apply render_layers in Hv as (_ & _ & Hms & Hes).
  rewrite Hes, nth_error_map in He.
  destruct (nth_error ls i) as [l|] eqn:Hi; [|discriminate].
  injection He as <-.
  destruct (mapM_nth _ ls (markers v) i l Hms Hi) as (m0 & Hm0 & Hml).
  assert (m0 = m) as -> by congruence.
  destruct (render_marker_fields toStr sel l m Hml) as (Hk & _ & _ & Hic & Hc).
  rewrite (proj1 (highlighted_entry toStr sel l)).
  rewrite (proj1 (enlarged_marker toStr sel l m Hml)).
  rewrite Hk, Hic, Hc. repeat split.
Qed.

Lemma entry_matches_marker_witness :
  exists e (m : Marker Z),
    entry_key e = marker_key m /\
    badge_text (entry_status e) = "hold" /\
    badge_text (card_status (content m)) = "HOLD".
Proof.
  destruct (render_defined JS.Z_toString lifts None seed_paths_nonempty) as [v Hv].
  pose proof (render_layers JS.Z_toString lifts None v Hv) as (_ & _ & Hms & Hes).
  destruct (mapM_nth _ lifts (markers v) 2 _ Hms eq_refl) as (m & Hm & _).
  pose (e := render_entry JS.Z_toString None
               {| id := "3"; name := "Beginner Magic Carpet"; status := hold;
                  type := magic_carpet; difficulty := beginner;
                  path := [(180, 300); (180, 250)]%Z; waitTime := 3%Z |}).
  assert (He : nth_error (entries v) 2 = Some e) by (rewrite Hes; reflexivity).
  destruct (entry_matches_marker JS.Z_toString lifts None v 2 e m Hv He Hm)
    as (Hk & _ & _ & _ & _ & Hu & _).
  exists e, m. split; [exact Hk|]. split; [reflexivity|].
  rewrite Hu. reflexivity.
Defined.

(** ** More on the path descriptor *)

Lemma join_app (sep : string) (xs ys : list string) :
  xs <> [] -> ys <> [] ->
  JS.join sep (xs ++ ys)%list = JS.join sep xs ++ sep ++ JS.join sep ys.
Proof.
  intros Hx Hy. induction xs as [|x xs IH]; [contradiction|].
  destruct xs as [|x' xs].
  - destruct ys as [|y ys]; [contradiction | reflexivity].
  - change (JS.join sep ((x :: x' :: xs) ++ ys)%list)
      with (x ++ sep ++ JS.join sep ((x' :: xs) ++ ys)%list).
    rewrite IH by discriminate.
    change (JS.join sep (x :: x' :: xs)) with (x ++ sep ++ JS.join sep (x' :: xs)).
    now rewrite !append_assoc.
Qed.

Lemma split_not_nil (sep : ascii) (s : string) : JS.split sep s <> [].
Proof.
  destruct s as [|c s]; simpl; [discriminate|].
  destruct (Ascii.eqb c sep); [discriminate|].
  destruct (JS.split sep s); discriminate.
Qed.

Lemma join_cons_field (sep : string) (c : ascii) (f : string) (fs : list string) :
  JS.join sep (String c f :: fs) = String c (JS.join sep (f :: fs)).
Proof. destruct fs; reflexivity. Qed.

(** X11. For a printer whose numerals are single tokens that read back,
    [drawLiftLine] is injective: two point lists with the same descriptor
    are the same list, the empty one included. *)
Theorem drawLiftLine_injective {number : Type}
    (toStr : number -> string) (ofStr : string -> option number)
    (ps qs : list (Point number)) :
  numerals toStr ofStr ->
  drawLiftLine toStr ps = drawLiftLine toStr qs -> ps = qs.
Proof.
  intros Hnum E.
  assert (R : read_path ofStr (drawLiftLine toStr ps) =
              read_path ofStr (drawLiftLine toStr qs)) by now rewrite E.
  destruct ps as [|p ps], qs as [|q qs]; [reflexivity| | |].
  - rewrite (read_path_drawLiftLine toStr ofStr Hnum) in R. discriminate R.
  - rewrite (read_path_drawLiftLine toStr ofStr Hnum) in R. discriminate R.
  - rewrite !(read_path_drawLiftLine toStr ofStr Hnum) in R.
    assert (C : MoveTo p :: map LineTo ps = MoveTo q :: map LineTo qs) by congruence.
    apply (f_equal visited) in C. now rewrite !visited_commands in C.
Qed.

Lemma drawLiftLine_injective_witness :
  drawLiftLine JS.Z_toString [(1, 2); (3, 4)]%Z = "M 1 2 L 3 4" /\
  [(1, 2); (3, 4)]%Z = [(1, 2); (3, 4)]%Z.
Proof.
  split; [reflexivity|].
  apply (drawLiftLine_injective JS.Z_toString JS.Z_ofString
           [(1, 2); (3, 4)]%Z [(1, 2); (3, 4)]%Z); [exact Z_numerals | reflexivity].
Defined.

(** X12. The descriptor of a path continued by further points is the
    descriptor of the path, then [" L "], then the further points joined
    as in the descriptor: continuing a path only appends line-tos. *)
Theorem drawLiftLine_extend {number : Type} (toStr : number -> string)
    (ps qs : list (Point number)) :
  ps <> [] -> qs <> [] ->
  drawLiftLine toStr (ps ++ qs)%list =
  drawLiftLine toStr ps ++ " L " ++ JS.join " L " (map (point_join toStr " ") qs).
Proof.
  intros Hp Hq. unfold drawLiftLine. rewrite map_app, join_app.
  - now rewrite !append_assoc.
  - destruct ps; [contradiction | discriminate].
  - destruct qs; [contradiction | discriminate].
Qed.

Lemma drawLiftLine_extend_witness :
  drawLiftLine JS.Z_toString ([(120, 150); (180, 80)] ++ [(250, 50)])%list%Z =
  "M 120 150 L 180 80" ++ " L " ++ "250 50".
Proof.
  apply (drawLiftLine_extend JS.Z_toString
           [(120, 150); (180, 80)]%Z [(250, 50)]%Z); discriminate.
Defined.

(** X13. With integer coordinates within the safe range, printed as
    decimal numerals, the descriptor of a non-empty path reads back as the
    move-to and line-tos of exactly its points. *)
Theorem integer_path_round_trip (p : Point Z) (rest : list (Point Z)) :
  Forall safe_point (p :: rest) ->
  read_path JS.Z_ofString (drawLiftLine JS.Z_toString (p :: rest)) =
  Some (MoveTo p :: map LineTo rest).
Proof.
  intros _. apply (read_path_drawLiftLine JS.Z_toString JS.Z_ofString Z_numerals).
Qed.

Lemma integer_path_round_trip_witness :
  read_path JS.Z_ofString (drawLiftLine JS.Z_toString [(-7, 0); (180, 250)]%Z) =
  Some [MoveTo (-7, 0)%Z; LineTo (180, 250)%Z].
Proof.
  apply (integer_path_round_trip (-7, 0)%Z [(180, 250)%Z]).
  repeat constructor; unfold safe_integer; simpl; lia.
Defined.

(** X14. Splitting a string at a character always gives a first field, and
    joining the fields with that character gives the string back. *)
Theorem split_join_round_trip (sep : ascii) (s : string) :
  nth_error (JS.split sep s) 0 <> None /\
  JS.join (String sep "") (JS.split sep s) = s.
Proof.
  split.
  - pose proof (split_not_nil sep s) as H.
    destruct (JS.split sep s); [contradiction | discriminate].
  - induction s as [|c s IH]; [reflexivity|].
    simpl JS.split. destruct (Ascii.eqb_spec c sep) as [->|_].
    + pose proof (split_not_nil sep s) as H.
      destruct (JS.split sep s) as [|f fs] eqn:E; [contradiction|].
      change (JS.join (String sep "") ("" :: f :: fs))
        with (String sep (JS.join (String sep "") (f :: fs))).
      now rewrite IH.
    + pose proof (split_not_nil sep s) as H.
      destruct (JS.split sep s) as [|f fs] eqn:E; [contradiction|].
      now rewrite join_cons_field, IH.
Qed.

(** ** Visual weight *)

(** X15. The visual weight is binary. For the lift at a position, its line,
    marker and list entry carry the emphasized attributes when the lift is
    the selected one (dark stroke of width 4; classes [scale-150 z-20];
    variant [default] with a ring) and the muted ones otherwise (grey stroke
    of width 2; classes [scale-100 z-10]; variant [outline], no ring); the
    other classes of the marker and of the entry are the same in both
    cases. *)
Theorem weight_is_binary {number : Type} (toStr : number -> string)
    (ls : list (Lift number)) (sel : option string) (v : View number)
    (i : nat) (l : Lift number) (p : PathElement) (m : Marker number) (e : ListEntry) :
  render toStr ls sel = Some v ->
  nth_error ls i = Some l ->
  nth_error (liftLines v) i = Some p ->
  nth_error (markers v) i = Some m ->
  nth_error (entries v) i = Some e ->
  (sel = Some (id l) ->
   stroke p = "#0f172a" /\ strokeWidth p = 4%Z /\
   tokens (trigger_className m) =
     ["absolute"; "cursor-pointer"; "transition-all"; "duration-300";
      "scale-150"; "z-20"] /\
   variant e = "default" /\
   tokens (entry_className e) =
     ["w-full"; "p-6"; "justify-between"; "group"; "hover:shadow-md";
      "ring-2"; "ring-offset-2"; "ring-slate-900";
      "transition-all"; "duration-300"]) /\
  (sel <> Some (id l) ->
   stroke p = "#64748b" /\ strokeWidth p = 2%Z /\
   tokens (trigger_className m) =
     ["absolute"; "cursor-pointer"; "transition-all"; "duration-300";
      "scale-100"; "z-10"] /\
   variant e = "outline" /\
   tokens (entry_className e) =
     ["w-full"; "p-6"; "justify-between"; "group"; "hover:shadow-md";
      "transition-all"; "duration-300"]).
Proof.
  intros Hv Hi Hp Hm He.
  apply render_layers in Hv as (_ & Hl & Hms & Hes).
  rewrite Hl, nth_error_map, Hi in Hp. injection Hp as <-.
  rewrite Hes, nth_error_map, Hi in He. injection He as <-.
  destruct (mapM_nth _ ls (markers v) i l Hms Hi) as (m0 & Hm0 & Hml).
  assert (m0 = m) as -> by congruence.
  unfold render_marker in Hml. destruct (path l) as [|p0 rest]; [discriminate|].
  cbn [nth_error bind] in Hml. injection Hml as <-.
  cbn [render_path render_entry stroke strokeWidth trigger_className variant
       entry_className].
  pose proof (strict_eq_true sel (id l)) as Hs.
  destruct (JS.strict_eq sel (id l)); split; intros H.
  - repeat split.
  - exfalso. apply H. now apply Hs.
  - apply Hs in H. discriminate H.
  - repeat split.
Qed.

Lemma weight_is_binary_witness :
  exists (m : Marker Z) (e : ListEntry),
    tokens (trigger_className m) =
      ["absolute"; "cursor-pointer"; "transition-all"; "duration-300";
       "scale-150"; "z-20"] /\
    variant e = "default".
Proof.
  pose (l := {| id := "2"; name := "Summit Quad"; status := open; type := quad;
                difficulty := advanced;
                path := [(250, 200); (300, 150); (350, 100)]%Z; waitTime := 12%Z |}).
  destruct (render_defined JS.Z_toString lifts (Some "2") seed_paths_nonempty) as [v Hv].
  pose proof (render_layers JS.Z_toString lifts (Some "2") v Hv) as (_ & Hl & Hms & Hes).
  destruct (mapM_nth _ lifts (markers v) 1 l Hms eq_refl) as (m & Hm & _).
  assert (Hp : nth_error (liftLines v) 1 = Some (render_path JS.Z_toString (Some "2") l))
    by (rewrite Hl; reflexivity).
  assert (He : nth_error (entries v) 1 = Some (render_entry JS.Z_toString (Some "2") l))
    by (rewrite Hes; reflexivity).
  destruct (proj1 (weight_is_binary JS.Z_toString lifts (Some "2") v 1 l _ m _
                     Hv eq_refl Hp Hm He) eq_refl)
    as (_ & _ & Ht & Hvar & _).
  exists m, (render_entry JS.Z_toString (Some "2") l).
  split; [exact Ht | exact Hvar].
Defined.
